(** * Disease prediction app: encoder, prediction handler, provider lookup

    A shallow embedding of [backend/routes/app.py].  The page is a Streamlit
    script; the parts modelled here are the helper functions [one_hot],
    [fetch_providers_by_specialty] and [render_provider_results], the
    "Predict Disease" handler with its writes to the session state, and the
    "Other possibilities" display loop.

    Conventions.
    - Widget calls ([st.warning], [st.error], [st.markdown], ...) are recorded
      as a list of UI events, in the order they are issued.
    - A Python exception is a value of [exn] carrying the text of [str(e)].
    - The classifier, [urllib.parse.quote] and the HTTP transport are the
      program's environment: they appear as parameters. *)

From Stdlib Require Import QArith Ascii Lqa.
From stdpp Require Import base gmap strings list sorting pretty.

Set Warnings "-clear-no-such-hyp".

(** ** A one-row data frame

    [one_hot] builds [pd.DataFrame(0, index=[0], columns=all_feats)]: a frame
    with the single row label [0].  Such a frame is its column labels and the
    cells of that row. *)

Module Pandas.

Record DataFrame := mkDataFrame {
  columns : list string;
  row0 : list Z;
}.

(** [pd.DataFrame(v, index=[0], columns=cols)] *)
Definition filled (v : Z) (cols : list string) : DataFrame :=
  {| columns := cols; row0 := replicate (length cols) v |}.

(** Column labels after [df.loc[0, keys] = v].  A list key is a list of
    column labels; pandas first makes sure each of them is a column, adding
    the missing ones after the existing columns, in the order of the key
    (setting with enlargement, as current pandas does).  Labels are distinct,
    in the columns and in the key: the feature list has no repetition and a
    selection is a set. *)
Fixpoint ensure_labels (cols keys : list string) : list string :=
  match keys with
  | [] => cols
  | k :: keys' =>
      ensure_labels (if bool_decide (k ∈ cols) then cols else cols ++ [k]) keys'
  end.

Definition set_cell (keys : list string) (v : Z) (c : string) (x : Z) : Z :=
  if bool_decide (c ∈ keys) then v else x.

(** [df.loc[0, keys] = v]: the frame is reindexed to the enlarged columns
    (the cells of the added columns are missing at that point, written [0]
    here, and every one of them is assigned right away since its label is in
    [keys]), then each cell whose label is in [keys] receives [v]. *)
Definition loc_set (df : DataFrame) (keys : list string) (v : Z) : DataFrame :=
  let cols' := ensure_labels (columns df) keys in
  {| columns := cols';
     row0 := zip_with (set_cell keys v) cols'
               (row0 df ++ replicate (length cols' - length (columns df)) 0%Z) |}.

End Pandas.

Import Pandas.

(** ** Feature encoder *)

(** [one_hot(symptoms, all_feats)] *)
Definition one_hot (symptoms all_feats : list string) : DataFrame :=
  let df := filled 0 all_feats in
  loc_set df symptoms 1.

(** Number of cells holding 1. *)
Definition count_ones (row : list Z) : nat :=
  length (filter (λ x, x = 1%Z) row).

(** The selected symptoms that are feature labels. *)
Definition known (symptoms all_feats : list string) : list string :=
  filter (λ s, s ∈ all_feats) symptoms.

(** ** Python values shared by the handlers *)

(** A raised exception; [exn_msg] is [str(e)]. *)
Record exn := Raised { exn_msg : string }.

(** A class label of the classifier.  Labels are strings for the shipped
    model; a classifier trained on numeric labels returns numbers, on which
    [y_pred.lower()] raises [AttributeError] (line 291). *)
Inductive label :=
  | LStr (s : string)
  | LNum (n : Z).

(** [str.lower] on a string of ASCII characters: the letters A to Z are
    mapped to a to z and every other byte is kept.  Python lowers the other
    cased characters of Unicode as well, so [lower] stands for [str.lower]
    on the strings that [is_ascii] accepts. *)
Definition lower_ascii (c : ascii) : ascii :=
  let n := Ascii.N_of_ascii c in
  if ((65 <=? n) && (n <=? 90))%N then Ascii.ascii_of_N (n + 32) else c.

Fixpoint lower (s : string) : string :=
  match s with
  | EmptyString => EmptyString
  | String c s' => String (lower_ascii c) (lower s')
  end.

(** The strings made of ASCII characters only. *)
Definition is_ascii (s : string) : bool :=
  forallb (λ c, (Ascii.N_of_ascii c <? 128)%N) (String.list_ascii_of_string s).

(** [a or b] on strings: the empty string is falsy. *)
Definition str_or (a b : string) : string :=
  if bool_decide (a = "") then b else a.

(** ** JSON values and formatted text *)

(** A decoded JSON document.  A dictionary keeps its entries in order, with
    distinct keys; numbers are the integers. *)
#[warnings="-register-all"] Inductive json :=
  | JNull
  | JBool (b : bool)
  | JNum (n : Z)
  | JStr (s : string)
  | JList (l : list json)
  | JDict (d : list (string * json)).

(** A formatted string is kept as its pieces: literal text and interpolated
    values ([f"...{v}..."] shows [str(v)]). *)
Inductive frag :=
  | Lit (s : string)
  | Fmt (v : json).

Definition text : Type := list frag.

(** Calls into the page: [st.error], [st.warning], [st.info], [st.write],
    [st.markdown]. *)
Inductive ui_event :=
  | StError (t : text)
  | StWarning (t : text)
  | StInfo (t : text)
  | StWrite (t : text)
  | StMarkdown (t : text).

(** ** Ranking of the class probabilities

    Probabilities are finite floats; only their order is used, so they are
    modelled as rationals.  The display threshold is the float literal
    [0.05], the double nearest to 1/20: a double is below it exactly when it
    is below 1/20. *)

Definition Qltb (x y : Q) : bool := negb (Qle_bool y x).

Definition threshold : Q := 1 # 20.

(** [probs[i]] for an index in range. *)
Definition prob_at (p : list Q) (i : nat) : Q := nth i p 0%Q.

(** [np.argsort(probs)]: the indices of [probs] in ascending order of
    probability.  The call uses the default sorting kind, which leaves the
    order of equal probabilities open; [argsort] is the sort that keeps them
    in index order, one of the results the call may give.  What every result
    of the call satisfies is [is_argsort] below. *)
Fixpoint insert_idx (p : list Q) (i : nat) (l : list nat) : list nat :=
  match l with
  | [] => [i]
  | j :: l' =>
      if Qltb (prob_at p j) (prob_at p i) then j :: insert_idx p i l'
      else i :: l
  end.

Definition argsort (p : list Q) : list nat :=
  foldr (insert_idx p) [] (seq 0 (length p)).

(** What [np.argsort(probs)] returns whatever the sorting kind: each index
    of [probs] once, in non-decreasing order of probability. *)
Definition is_argsort (p : list Q) (idx : list nat) : Prop :=
  NoDup idx ∧
  (∀ i, i ∈ idx ↔ i < length p) ∧
  StronglySorted (λ i j, (prob_at p i <= prob_at p j)%Q) idx.

(** [a[-n:]] *)
Definition last_n {A} (n : nat) (a : list A) : list A :=
  drop (length a - n) a.

(** [idx[-3:][::-1]] *)
Definition top3_of (idx : list nat) : list nat :=
  rev (last_n 3 idx).

(** [np.argsort(probs)[-3:][::-1]] *)
Definition top3 (p : list Q) : list nat :=
  rev (last_n 3 (argsort p)).

(** The value stored under ["prediction_probs"]. *)
Record ProbTable := mkProbTable {
  probs : list Q;
  top_idx : list nat;
}.

(** The "Other possibilities" loop: the indices of [top_idx] in order,
    skipping those with [probs[i] < 0.05].  An entry [(i, probs[i])] stands
    for the line showing [model.classes_[i]] and its percentage. *)
Definition other_possibilities (t : ProbTable) : list (nat * Q) :=
  map (λ i, (i, prob_at (probs t) i))
      (filter (λ i, Qltb (prob_at (probs t) i) threshold = false) (top_idx t)).

(** ** Classifier and specialty mapping *)

(** The loaded model: [predict(X)[0]], [predict_proba(X)[0]] when the model
    has that method ([hasattr]).  Either call may raise. *)
Record Classifier := mkClassifier {
  predict : DataFrame → exn + label;
  predict_proba : option (DataFrame → exn + list Q);
}.

(** One row of the disease→specialty table ([fillna("")]: absent cells are
    empty strings). *)
Record SpecialtyInfo := mkInfo {
  Specialization : string;
  Classification : string;
  Taxonomy_Code : string;
}.

(** [disease_to_specialty.get(low) or disease_to_specialty.get(y)]; a row is
    a dictionary of three keys, hence truthy. *)
Definition lookup_info (m : gmap string SpecialtyInfo) (low y : string)
  : option SpecialtyInfo :=
  match m !! low with
  | Some info => Some info
  | None => m !! y
  end.

(** [info.get("Specialization") or info.get("Classification") or ""] *)
Definition specialty_of (info : SpecialtyInfo) : string :=
  str_or (str_or (Specialization info) (Classification info)) "".

(** [info.get("Taxonomy Code") or ""] *)
Definition taxonomy_of (info : SpecialtyInfo) : string :=
  str_or (Taxonomy_Code info) "".

(** Lines 290-297 for a string label: the specialty and taxonomy code that
    the handler stores, if any. *)
Definition resolve_specialty (m : gmap string SpecialtyInfo) (y : string)
  : option (string * string) :=
  match lookup_info m (lower y) y with
  | Some info => Some (specialty_of info, taxonomy_of info)
  | None => None
  end.

(** ** Session state and the predict handler *)

Record Session := mkSession {
  last_prediction : option label;
  recommended_specialty : option string;
  taxonomy_code : option string;
  prediction_probs : option ProbTable;
  show_providers : bool;
}.

(** The state after the initialisation block (lines 241-250) of a fresh
    session. *)
Definition initial_session : Session :=
  {| last_prediction := None; recommended_specialty := None;
     taxonomy_code := None; prediction_probs := None;
     show_providers := false |}.

(** Statements of the [try] body: they read and write the session and may
    raise.  A raise keeps the writes made so far. *)
Definition M (A : Type) : Type := Session → Session * (exn + A).

#[global] Instance M_ret : MRet M := λ A a st, (st, inr a).

#[global] Instance M_bind : MBind M := λ A B f m st,
  match m st with
  | (st', inr a) => f a st'
  | (st', inl e) => (st', inl e)
  end.

(** The result of a call that may raise. *)
Definition call {A} (r : exn + A) : M A := λ st, (st, r).

Definition raise {A} (e : exn) : M A := call (inl e).

Definition set_last_prediction (y : label) : M unit := λ st,
  (mkSession (Some y) (recommended_specialty st) (taxonomy_code st)
     (prediction_probs st) (show_providers st), inr ()).

Definition set_show_providers (b : bool) : M unit := λ st,
  (mkSession (last_prediction st) (recommended_specialty st) (taxonomy_code st)
     (prediction_probs st) b, inr ()).

Definition set_prediction_probs (t : ProbTable) : M unit := λ st,
  (mkSession (last_prediction st) (recommended_specialty st) (taxonomy_code st)
     (Some t) (show_providers st), inr ()).

Definition set_recommended_specialty (s : string) : M unit := λ st,
  (mkSession (last_prediction st) (Some s) (taxonomy_code st)
     (prediction_probs st) (show_providers st), inr ()).

Definition set_taxonomy_code (s : string) : M unit := λ st,
  (mkSession (last_prediction st) (recommended_specialty st) (Some s)
     (prediction_probs st) (show_providers st), inr ()).

(** The body of the [try] (lines 272-299). *)
Definition predict_body (model : Classifier) (all_symptoms : list string)
    (disease_to_specialty : gmap string SpecialtyInfo)
    (selected_symptoms : list string) : M unit :=
  let X := one_hot selected_symptoms all_symptoms in
  y_pred ← call (predict model X);
  set_last_prediction y_pred;;
  set_show_providers false;;
  match predict_proba model with
  | Some proba =>
      p ← call (proba X);
      set_prediction_probs {| probs := p; top_idx := top3 p |}
  | None => mret ()
  end;;
  match y_pred with
  | LNum _ => raise (Raised "'numpy.int64' object has no attribute 'lower'")
  | LStr y =>
      match resolve_specialty disease_to_specialty y with
      | Some (spec, taxonomy) =>
          set_recommended_specialty spec;;
          set_taxonomy_code taxonomy
      | None => mret ()
      end
  end.

(** Lines 270-302: the handler runs when the button was clicked and the
    selection is not empty; [except Exception as e] shows the message. *)
Definition on_predict (model : Classifier) (all_symptoms : list string)
    (disease_to_specialty : gmap string SpecialtyInfo)
    (predict_btn : bool) (selected_symptoms : list string) (st : Session)
  : Session * list ui_event :=
  if predict_btn && bool_decide (selected_symptoms ≠ []) then
    match predict_body model all_symptoms disease_to_specialty
            selected_symptoms st with
    | (st', inr _) => (st', [])
    | (st', inl e) => (st', [StError [Lit "Prediction failed: "; Lit (exn_msg e)]])
    end
  else (st, []).

(** ** Python operations on JSON values *)

(** An exception that leaves [render_provider_results]: nothing catches it
    there, so only its class is kept. *)
Inductive crash :=
  | TypeError
  | AttributeError
  | KeyError.

#[global] Instance crash_ret : MRet (sum crash) := λ A a, inr a.

#[global] Instance crash_bind : MBind (sum crash) := λ A B f m,
  match m with
  | inr a => f a
  | inl c => inl c
  end.

(** [bool(v)] *)
Definition truthy (v : json) : bool :=
  match v with
  | JNull => false
  | JBool b => b
  | JNum n => negb (n =? 0)%Z
  | JStr s => negb (bool_decide (s = ""))
  | JList l => match l with [] => false | _ => true end
  | JDict d => match d with [] => false | _ => true end
  end.

(** The value stored under key [k]. *)
Fixpoint assoc {V} (k : string) (d : list (string * V)) : option V :=
  match d with
  | [] => None
  | (k', v) :: d' => if bool_decide (k' = k) then Some v else assoc k d'
  end.

(** [v.get(k, dflt)]; only dictionaries have [get]. *)
Definition get (v : json) (k : string) (dflt : json) : crash + json :=
  match v with
  | JDict d => inr (default dflt (assoc k d))
  | _ => inl AttributeError
  end.

(** [v == s] for a string literal [s] *)
Definition eq_str (v : json) (s : string) : bool :=
  match v with
  | JStr s' => bool_decide (s' = s)
  | _ => false
  end.

(** [v == 0]; [False == 0] holds in Python. *)
Definition eq_zero (v : json) : bool :=
  match v with
  | JNum n => (n =? 0)%Z
  | JBool b => negb b
  | _ => false
  end.

(** [v is True] *)
Definition is_True (v : json) : bool :=
  match v with
  | JBool b => b
  | _ => false
  end.

(** [k in v] for a string [k]: key of a dictionary, element of a list,
    substring of a string; other values are not containers. *)
Definition contains (k : string) (v : json) : crash + bool :=
  match v with
  | JDict d => inr (bool_decide (is_Some (assoc k d)))
  | JList l => inr (existsb (λ x, eq_str x k) l)
  | JStr s => inr (bool_decide (is_Some (String.index 0 k s)))
  | _ => inl TypeError
  end.

(** [v[k]] for a string [k] *)
Definition subscript (v : json) (k : string) : crash + json :=
  match v with
  | JDict d => match assoc k d with Some x => inr x | None => inl KeyError end
  | _ => inl TypeError
  end.

(** [len(v)] *)
Definition py_len (v : json) : crash + nat :=
  match v with
  | JList l => inr (length l)
  | JDict d => inr (length d)
  | JStr s => inr (String.length s)
  | _ => inl TypeError
  end.

(** The items that [for x in v] visits. *)
Definition py_iter (v : json) : crash + list json :=
  match v with
  | JList l => inr l
  | JDict d => inr (map (λ kv, JStr kv.1) d)
  | JStr s => inr (map (λ c, JStr (String c EmptyString)) (String.list_ascii_of_string s))
  | _ => inl TypeError
  end.

(** [next((x for x in items if test(x)), None)]: the generator stops at the
    first match, so later items are not looked at. *)
Fixpoint find_first (test : json → crash + bool) (items : list json)
  : crash + json :=
  match items with
  | [] => inr JNull
  | x :: items' =>
      b ← test x;
      if b : bool then inr x else find_first test items'
  end.

(** [str(v)] for a scalar. *)
Definition py_str (v : json) : option string :=
  match v with
  | JNull => Some "None"
  | JBool true => Some "True"
  | JBool false => Some "False"
  | JNum n => Some (pretty n)
  | JStr s => Some s
  | _ => None
  end.

(** The string a formatted text denotes, when every interpolated value is a
    scalar. *)
Fixpoint flatten (t : text) : option string :=
  match t with
  | [] => Some ""
  | Lit s :: t' => rest ← flatten t'; Some (s +:+ rest)
  | Fmt v :: t' => s ← py_str v; rest ← flatten t'; Some (s +:+ rest)
  end.

(** ** Provider lookup client *)

(** What [requests.get(url)] gives, with [response.json()] of the response:
    a response with its status code and decoded body (decoding may raise),
    or an exception of the transport. *)
Inductive http_outcome :=
  | Response (status_code : Z) (body : exn + json)
  | Failure (e : exn).

(** [params[k] = v] on a dictionary in insertion order. *)
Fixpoint dict_set {V} (k : string) (v : V) (d : list (string * V))
  : list (string * V) :=
  match d with
  | [] => [(k, v)]
  | (k', v') :: d' =>
      if bool_decide (k' = k) then (k, v) :: d' else (k', v') :: dict_set k v d'
  end.

(** Lines 136-139: the non-empty location fields are added to [params]. *)
Definition add_location (location : option (list (string * string)))
    (params : list (string * string)) : list (string * string) :=
  match location with
  | Some ((_ :: _) as fields) =>
      foldl (λ ps kv, if bool_decide (kv.2 = "") then ps else dict_set kv.1 kv.2 ps)
            params fields
  | _ => params
  end.

Definition base_url : string := "https://npiregistry.cms.hhs.gov/api/".

Section ProviderLookup.

(** [urllib.parse.quote] and the registry behind [requests.get]. *)
Variable quote : string → string.
Variable requests_get : string → http_outcome.

(** Lines 122-147 *)
Definition full_url (specialty : string) (limit : Z)
    (location : option (list (string * string))) : string :=
  let params :=
    [("taxonomy_description", quote specialty); ("limit", pretty limit);
     ("version", "2.1"); ("pretty", "")] in
  let params := add_location location params in
  let query_parts := map (λ kv, kv.1 +:+ "=" +:+ kv.2) params in
  base_url +:+ "?" +:+ String.concat "&" query_parts.

(** [fetch_providers_by_specialty(specialty, limit, location)] *)
Definition fetch_providers_by_specialty (specialty : string) (limit : Z)
    (location : option (list (string * string))) : json :=
  match requests_get (full_url specialty limit location) with
  | Response status_code body =>
      if (status_code =? 200)%Z then
        match body with
        | inr j => j
        | inl e => JDict [("error", JStr (exn_msg e))]
        end
      else
        JDict [("error",
                JStr ("API request failed with status code " +:+ pretty status_code))]
  | Failure e => JDict [("error", JStr (exn_msg e))]
  end.

End ProviderLookup.

(** ** Result presenter *)

(** Rendering code: the events issued so far, and either a value or the
    exception that stopped it. *)
Definition R (A : Type) : Type := (list ui_event * (crash + A))%type.

#[global] Instance R_ret : MRet R := λ A a, ([], inr a).

#[global] Instance R_bind : MBind R := λ A B f m,
  match m with
  | (ev, inr a) => let '(ev', r) := f a in (ev ++ ev', r)
  | (ev, inl c) => (ev, inl c)
  end.

Definition emit (e : ui_event) : R unit := ([e], inr ()).

Definition lift {A} (r : crash + A) : R A := ([], r).

(** Lines 182-189: the display name of a provider entry. *)
Definition display_name (provider : json) : crash + text :=
  enumeration_type ← get provider "enumeration_type" JNull;
  if eq_str enumeration_type "NPI-1" then
    basic ← get provider "basic" (JDict []);
    first_name ← get basic "first_name" (JStr "");
    basic' ← get provider "basic" (JDict []);
    last_name ← get basic' "last_name" (JStr "");
    mret [Fmt first_name; Lit " "; Fmt last_name]
  else
    basic ← get provider "basic" (JDict []);
    organization_name ← get basic "organization_name" (JStr "Unknown Provider");
    mret [Fmt organization_name].

(** Lines 192-195 *)
Definition location_address_of (provider : json) : crash + json :=
  addresses ← get provider "addresses" (JList []);
  items ← py_iter addresses;
  find_first (λ a, purpose ← get a "address_purpose" JNull;
                   mret (eq_str purpose "LOCATION")) items.

(** Lines 198-201 *)
Definition primary_taxonomy_of (provider : json) : crash + json :=
  taxonomies ← get provider "taxonomies" (JList []);
  items ← py_iter taxonomies;
  find_first (λ t, primary ← get t "primary" JNull;
                   mret (is_True primary)) items.

(** Lines 209-224: the address block of a card. *)
Definition render_address (location_address : json) : R unit :=
  if truthy location_address then
    address_1 ← lift (get location_address "address_1" (JStr ""));
    address_2 ← lift (get location_address "address_2" JNull);
    let address_line :=
      if truthy address_2 then [Fmt address_1; Lit ", "; Fmt address_2]
      else [Fmt address_1] in
    city ← lift (get location_address "city" (JStr ""));
    state ← lift (get location_address "state" (JStr ""));
    postal_code ← lift (get location_address "postal_code" (JStr ""));
    let city_state := [Fmt city; Lit ", "; Fmt state; Lit " "; Fmt postal_code] in
    emit (StMarkdown ([Lit "<div class='provider-address'>"] ++ address_line
                        ++ [Lit "<br>"] ++ city_state ++ [Lit "</div>"]));;
    telephone_number ← lift (get location_address "telephone_number" JNull);
    if truthy telephone_number then
      emit (StMarkdown [Lit "<div class='provider-contact'>📞 ";
                        Fmt telephone_number; Lit "</div>"])
    else mret ()
  else mret ().

(** Lines 226-231 *)
Definition render_taxonomy (primary_taxonomy : json) : R unit :=
  if truthy primary_taxonomy then
    taxonomy_desc ← lift (get primary_taxonomy "desc" (JStr ""));
    emit (StMarkdown [Lit "<div class='provider-taxonomy'>"; Fmt taxonomy_desc;
                      Lit "</div>"])
  else mret ().

(** The body of the loop over the providers (lines 181-233). *)
Definition render_provider (provider : json) : R unit :=
  name ← lift (display_name provider);
  location_address ← lift (location_address_of provider);
  primary_taxonomy ← lift (primary_taxonomy_of provider);
  emit (StMarkdown ([Lit "<div class='provider-name'>"] ++ name ++ [Lit "</div>"]));;
  render_address location_address;;
  render_taxonomy primary_taxonomy;;
  emit (StMarkdown [Lit "</div>"]).

Fixpoint for_each (body : json → R unit) (items : list json) : R unit :=
  match items with
  | [] => mret ()
  | x :: items' => body x;; for_each body items'
  end.

(** [render_provider_results(results)] *)
Definition render_provider_results (results : json) : R unit :=
  no_results ←
    (if truthy results then
       has_results ← lift (contains "results" results);
       mret (negb has_results)
     else mret true);
  if no_results : bool then
    emit (StWarning [Lit "No provider results found."])
  else
    has_error ← lift (contains "error" results);
    if has_error : bool then
      reason ← lift (subscript results "error");
      emit (StError [Lit "Error fetching providers: "; Fmt reason])
    else
      providers ← lift (get results "results" (JList []));
      result_count ← lift (get results "result_count" (JNum 0));
      if eq_zero result_count then
        emit (StInfo
          [Lit "No providers found for this specialty in the selected location."])
      else
        shown ← lift (py_len providers);
        emit (StWrite [Lit "Found "; Fmt result_count;
                       Lit " providers. Showing top ";
                       Fmt (JNum (Z.of_nat shown)); Lit ":"]);;
        items ← lift (py_iter providers);
        for_each render_provider items.

(** Lines 414-418: the search button. *)
Definition on_search (quote : string → string)
    (requests_get : string → http_outcome)
    (specialty : string) (limit : Z) (location : option (list (string * string)))
  : R unit :=
  let results := fetch_providers_by_specialty quote requests_get specialty limit
                   location in
  render_provider_results results.

(** ** Vocabulary of the properties *)

(** The cell that the encoder writes for column [c]. *)
Definition indicator (symptoms : list string) (c : string) : Z :=
  if bool_decide (c ∈ symptoms) then 1%Z else 0%Z.

(** Position in the ascending ranking: by probability, then by index. *)
Definition ranks_below (p : list Q) (i j : nat) : Prop :=
  (prob_at p i < prob_at p j)%Q ∨ ((prob_at p i == prob_at p j)%Q ∧ i < j).

(** The ranking as the specification words it: at most three entries, none
    below the threshold, descending by probability, equal probabilities in
    the order of the class list. *)
Definition ranked_as_claimed (shown : list (nat * Q)) : Prop :=
  (length shown ≤ 3)%nat ∧
  Forall (λ e, (threshold <= e.2)%Q) shown ∧
  StronglySorted (λ a b, (b.2 < a.2)%Q ∨ ((a.2 == b.2)%Q ∧ a.1 < b.1)) shown.

(** An event of [st.error]. *)
Definition is_st_error (ev : ui_event) : bool :=
  match ev with
  | StError _ => true
  | _ => false
  end.

(** The message of [st.error] for an error reason. *)
Definition error_message (reason : json) : ui_event :=
  StError [Lit "Error fetching providers: "; Fmt reason].

Definition no_results_warning : ui_event :=
  StWarning [Lit "No provider results found."].

Definition no_providers_notice : ui_event :=
  StInfo [Lit "No providers found for this specialty in the selected location."].

(** ** Sample data *)

(** A classifier that predicts "Flu" and whose probability estimate raises. *)
Definition flaky_model : Classifier :=
  {| predict := λ _, inr (LStr "Flu");
     predict_proba := Some (λ _, inl (Raised "boom")) |}.

(** A session that holds an earlier prediction, with the provider panel
    open. *)
Definition earlier_session : Session :=
  {| last_prediction := Some (LStr "Cold");
     recommended_specialty := Some "Family Medicine";
     taxonomy_code := Some "207Q00000X";
     prediction_probs := None;
     show_providers := true |}.

(** A classifier that answers "Flu" when the first feature is set and "Cold"
    otherwise, with a fixed probability estimate; a mapping with one row. *)
Definition demo_model : Classifier :=
  {| predict := λ X,
       inr (LStr (if bool_decide (row0 X !! 0 = Some 1%Z) then "Flu" else "Cold"));
     predict_proba := Some (λ _, inr [7 # 10; 3 # 10]%Q) |}.

Definition demo_mapping : gmap string SpecialtyInfo :=
  {[ "flu" := mkInfo "Infectious Disease" "Internal Medicine" "207RI0200X" ]}.

(** A classifier without [predict_proba], and a session that holds a
    probability table. *)
Definition plain_model : Classifier :=
  {| predict := λ _, inr (LStr "Flu"); predict_proba := None |}.


(** ** Artifact loader *)

(** [[f"symptom_{i}" for i in range(k)]] *)
Definition fallback_features (k : nat) : list string :=
  map (λ i, "symptom_" +:+ pretty i) (seq 0 k).

(** [set_index("Disease")[...].to_dict(orient="index")] on the rows of the
    table: pandas refuses an index with a repeated label. *)
Definition to_dict_index (rows : list (string * SpecialtyInfo))
  : exn + gmap string SpecialtyInfo :=
  if bool_decide (NoDup rows.*1) then inr (list_to_map rows)
  else inl (Raised "DataFrame index must be unique for orient='index'.").

(** What the loader returns, with the warning it may show. *)
Record Artifacts := mkArtifacts {
  loaded_model : Classifier;
  loaded_features : list string;
  loaded_mapping : gmap string SpecialtyInfo;
  loader_events : list ui_event;
}.

(** [load_model_features_mapping()].  Its environment: [joblib.load] gives
    the model or raises; [model.coef_.shape[1]] gives the input width or
    raises; the feature file and the mapping file are absent, or hold a
    column of features and the rows of the table.  Nothing here is caught:
    an exception ends the script. *)
Definition load_model_features_mapping (joblib_load : exn + Classifier)
    (coef_width : exn + nat) (feature_csv : option (list string))
    (mapping_tsv : option (list (string * SpecialtyInfo)))
  : exn + Artifacts :=
  match joblib_load with
  | inl e => inl e
  | inr model =>
      match (match feature_csv with
             | Some features => inr features
             | None =>
                 match coef_width with
                 | inr k => inr (fallback_features k)
                 | inl e => inl e
                 end
             end) with
      | inl e => inl e
      | inr features =>
          match mapping_tsv with
          | Some rows =>
              match to_dict_index rows with
              | inr mapping => inr (mkArtifacts model features mapping [])
              | inl e => inl e
              end
          | None =>
              inr (mkArtifacts model features ∅
                     [StWarning [Lit "Specialty mapping file not found – specialties will be omitted."]])
          end
      end
  end.

(** ** The rest of the page *)

(** Truthiness of a session field that holds [None] or a string. *)
Definition field_truthy (v : option string) : bool :=
  match v with
  | Some s => negb (bool_decide (s = ""))
  | None => false
  end.

(** Lines 332-334: the button exists when there is a specialty; a click sets
    [show_providers]. *)
Definition on_find_providers (find_btn : bool) (st : Session) : Session :=
  if field_truthy (recommended_specialty st) then
    if find_btn then
      mkSession (last_prediction st) (recommended_specialty st)
        (taxonomy_code st) (prediction_probs st) true
    else st
  else st.

(** The session states that a session can be in: the initial one, and those
    that the predict handler and the find button lead to. *)
Inductive reachable (model : Classifier) (all_symptoms : list string)
    (disease_to_specialty : gmap string SpecialtyInfo) : Session → Prop :=
  | reach_initial :
      reachable model all_symptoms disease_to_specialty initial_session
  | reach_predict st predict_btn selected_symptoms :
      reachable model all_symptoms disease_to_specialty st →
      reachable model all_symptoms disease_to_specialty
        (on_predict model all_symptoms disease_to_specialty predict_btn
           selected_symptoms st).1
  | reach_find st find_btn :
      reachable model all_symptoms disease_to_specialty st →
      reachable model all_symptoms disease_to_specialty
        (on_find_providers find_btn st).

(** Events of the whole page: those of the helpers and of the predict
    handler, and [st.success], [st.caption] and a button. *)
Inductive page_event :=
  | Ui (e : ui_event)
  | StSuccess (t : text)
  | StCaption (t : text)
  | StButton (label : string).

(** An exception that ends the script run. *)
Inductive page_crash :=
  | Uncaught (c : crash)
  | IndexError.

Definition P (A : Type) : Type := (list page_event * (page_crash + A))%type.

#[global] Instance P_ret : MRet P := λ A a, ([], inr a).

#[global] Instance P_bind : MBind P := λ A B f m,
  match m with
  | (ev, inr a) => let '(ev', r) := f a in (ev ++ ev', r)
  | (ev, inl c) => (ev, inl c)
  end.

Definition show (e : page_event) : P unit := ([e], inr ()).

Definition fail {A} (c : page_crash) : P A := ([], inl c).

(** [str(y)] and [bool(y)] of a label. *)
Definition label_str (y : label) : string :=
  match y with
  | LStr s => s
  | LNum n => pretty n
  end.

Definition label_truthy (y : label) : bool :=
  match y with
  | LStr s => negb (bool_decide (s = ""))
  | LNum n => negb (n =? 0)%Z
  end.

Fixpoint for_each_idx (body : nat → P unit) (idx : list nat) : P unit :=
  match idx with
  | [] => mret ()
  | i :: idx' => body i;; for_each_idx body idx'
  end.

Section Page.

(** [f"{p*100:.1f}"] and the class labels [model.classes_]. *)
Variable fmt_pct : Q → string.
Variable classes_ : list label.

(** Lines 315-318: one turn of the loop.  Indexing past the end raises. *)
Definition possibility_line (t : ProbTable) (i : nat) : P unit :=
  match probs t !! i with
  | None => fail IndexError
  | Some q =>
      if Qltb q threshold then mret ()
      else
        match classes_ !! i with
        | None => fail IndexError
        | Some c =>
            show (Ui (StMarkdown [Lit "• "; Lit (label_str c); Lit " — ";
                                  Lit (fmt_pct q); Lit "%"]))
        end
  end.

(** Lines 321-329 *)
Definition specialty_block (st : Session) : P unit :=
  if field_truthy (recommended_specialty st) then
    show (Ui (StMarkdown [Lit "### Recommended Specialty"]));;
    show (StSuccess [Lit "**"; Lit (default "" (recommended_specialty st));
                     Lit "**"]);;
    if field_truthy (taxonomy_code st) then
      show (StCaption [Lit "NPI Taxonomy Code: ";
                       Lit (default "" (taxonomy_code st))])
    else mret ()
  else mret ().

(** Lines 305-329.  The key "prediction_probs" is always in the session
    state (line 247), so its value is subscripted even when it is [None]. *)
Definition results_panel (st : Session) : P unit :=
  match last_prediction st with
  | Some y_pred =>
      if label_truthy y_pred then
        show (Ui (StMarkdown [Lit "## Likely Disease: **"; Lit (label_str y_pred);
                              Lit "**"]));;
        match prediction_probs st with
        | None => fail (Uncaught TypeError)
        | Some t =>
            show (Ui (StMarkdown [Lit "### Other possibilities"]));;
            for_each_idx (possibility_line t) (top_idx t)
        end;;
        specialty_block st
      else mret ()
  | None => mret ()
  end.

(** Lines 332-334, with the button that they show. *)
Definition find_button (find_btn : bool) (st : Session) : P Session :=
  if field_truthy (recommended_specialty st) then
    show (StButton "Find Providers for this Specialty");;
    mret (on_find_providers find_btn st)
  else mret st.

(** Lines 266-334: the right column of one script run.  The session state
    outlives an exception: it is returned next to the events and to the
    exception that ended the run, if any. *)
Definition right_column (model : Classifier) (all_symptoms : list string)
    (disease_to_specialty : gmap string SpecialtyInfo)
    (predict_btn : bool) (selected_symptoms : list string) (find_btn : bool)
    (st : Session) : Session * list page_event * option page_crash :=
  let header := Ui (StMarkdown [Lit "### Prediction Results"]) in
  let '(st1, ev1) := on_predict model all_symptoms disease_to_specialty
                       predict_btn selected_symptoms st in
  match results_panel st1 with
  | (ev2, inl c) => (st1, header :: (Ui <$> ev1) ++ ev2, Some c)
  | (ev2, inr _) =>
      match find_button find_btn st1 with
      | (ev3, inr st2) => (st2, header :: (Ui <$> ev1) ++ ev2 ++ ev3, None)
      | (ev3, inl c) => (st1, header :: (Ui <$> ev1) ++ ev2 ++ ev3, Some c)
      end
  end.

End Page.

(** ** Well-formed registry entries *)

Definition is_dict (v : json) : bool :=
  match v with
  | JDict _ => true
  | _ => false
  end.

(** A list of dictionaries. *)
Definition dict_list (v : json) : bool :=
  match v with
  | JList l => forallb is_dict l
  | _ => false
  end.

(** A provider entry of the registry's shape: a dictionary whose "basic"
    entry, if any, is a dictionary, and whose "addresses" and "taxonomies"
    entries, if any, are lists of dictionaries. *)
Definition well_formed_provider (provider : json) : bool :=
  match provider with
  | JDict d =>
      is_dict (default (JDict []) (assoc "basic" d))
      && dict_list (default (JList []) (assoc "addresses" d))
      && dict_list (default (JList []) (assoc "taxonomies" d))
  | _ => false
  end.

(** One query parameter after the first. *)
Definition query_pair (kv : string * string) : string :=
  "&" +:+ kv.1 +:+ "=" +:+ kv.2.

(** The session after a first prediction of [demo_model], and after a click
    on the find button. *)
Definition demo_state : Session :=
  (on_predict demo_model ["fever"; "cough"] demo_mapping true ["fever"]
     initial_session).1.

Definition demo_state_providers : Session := on_find_providers true demo_state.

(** The query parameters that follow the fixed ones. *)
Definition query_tail (fields : list (string * string)) : string :=
  foldr (λ kv acc, query_pair kv +:+ acc) "" fields.

(** An event of [st.markdown]. *)
Definition is_markdown (ev : ui_event) : Prop := ∃ t, ev = StMarkdown t.

(** The line of the "Other possibilities" list for class [c] with
    probability [q]. *)
Definition possibility_event (fmt_pct : Q → string) (c : label) (q : Q)
  : page_event :=
  Ui (StMarkdown [Lit "• "; Lit (label_str c); Lit " — "; Lit (fmt_pct q);
                  Lit "%"]).

(** A dictionary with an address purpose other than "LOCATION". *)
Definition other_purpose (a : json) : Prop :=
  ∃ d, a = JDict d ∧
       eq_str (default JNull (assoc "address_purpose" d)) "LOCATION" = false.

(** The sum of a distribution. *)
Definition Qsum (p : list Q) : Q := foldr Qplus 0%Q p.

(** * Properties *)

(** ** Feature encoder *)

Example one_hot_selected :
  one_hot ["cough"] ["fever"; "cough"; "rash"]
  = {| columns := ["fever"; "cough"; "rash"]; row0 := [0; 1; 0]%Z |}.
Proof. vm_compute. reflexivity. Qed.

Example one_hot_order_independent :
  one_hot ["rash"; "fever"] ["fever"; "cough"; "rash"]
  = one_hot ["fever"; "rash"] ["fever"; "cough"; "rash"].
Proof. vm_compute. reflexivity. Qed.

Lemma ensure_labels_extra (keys cols : list string) :
  ∃ extra, ensure_labels cols keys = cols ++ extra ∧ NoDup extra ∧
           ∀ u, u ∈ extra ↔ u ∈ keys ∧ u ∉ cols.
Proof.
  revert cols. induction keys as [|k keys IH]; intros cols; simpl.
  - exists []. rewrite app_nil_r. split; [done|]. split; [constructor|].
    intros u. set_solver.
  - case_bool_decide as Hk.
    + destruct (IH cols) as (extra & Heq & Hnd & Hin).
      exists extra. split; [done|]. split; [done|].
      intros u. rewrite Hin. set_solver.
    + destruct (IH (cols ++ [k])) as (extra & Heq & Hnd & Hin).
      exists (k :: extra). rewrite Heq, <- app_assoc. split; [done|]. split.
      * constructor; [|done]. rewrite Hin. set_solver.
      * intros u. rewrite elem_of_cons, Hin.
        destruct (decide (u = k)) as [->|]; set_solver.
Qed.

Lemma ensure_labels_subset (keys cols : list string) :
  keys ⊆ cols → ensure_labels cols keys = cols.
Proof.
  intros Hsub. destruct (ensure_labels_extra keys cols) as (extra & -> & _ & Hin).
  destruct extra as [|u extra]; [by rewrite app_nil_r|].
  exfalso. destruct (proj1 (Hin u)) as [Hu Hn]; [left|]. by apply Hn, Hsub.
Qed.

Lemma zip_with_replicate_r {A B C} (f : A → B → C) (l : list A) (x : B) :
  zip_with f l (replicate (length l) x) = map (λ a, f a x) l.
Proof. induction l; simpl; by f_equal. Qed.

Lemma one_hot_columns (symptoms all_feats : list string) :
  columns (one_hot symptoms all_feats) = ensure_labels all_feats symptoms.
Proof. reflexivity. Qed.

Lemma one_hot_row0 (symptoms all_feats : list string) :
  row0 (one_hot symptoms all_feats)
  = map (indicator symptoms) (ensure_labels all_feats symptoms).
Proof.
  unfold one_hot, loc_set, filled; simpl.
  destruct (ensure_labels_extra symptoms all_feats) as (extra & Heq & _).
  rewrite <- replicate_add.
  replace (length all_feats + (length (ensure_labels all_feats symptoms)
                               - length all_feats))
    with (length (ensure_labels all_feats symptoms))
    by (rewrite Heq, length_app; lia).
  by rewrite zip_with_replicate_r.
Qed.

Lemma count_ones_indicator (symptoms l : list string) :
  count_ones (map (indicator symptoms) l)
  = length (filter (λ c, c ∈ symptoms) l).
Proof.
  unfold count_ones. induction l as [|c l IH]; [done|].
  simpl. rewrite !filter_cons. unfold indicator at 1.
  case_bool_decide; repeat case_decide; simpl; try done; by rewrite IH.
Qed.

Lemma indicator_selected (symptoms l : list string) :
  (∀ u, u ∈ l → u ∈ symptoms) →
  map (indicator symptoms) l = replicate (length l) 1%Z.
Proof.
  induction l as [|u l IH]; intros Hl; [done|]. simpl. f_equal.
  - unfold indicator. rewrite bool_decide_true; [done|]. apply Hl. by left.
  - apply IH. intros v Hv. apply Hl. by right.
Qed.

(** C5.  For a selection drawn from the feature list, the encoded row is
    aligned with the feature list: same columns, same length, the cell at
    each position is 1 if the feature at that position is selected and 0
    otherwise, and the number of ones is the size of the intersection of the
    selection with the feature list (which is the size of the selection). *)
Theorem one_hot_subset (S all_feats : list string) :
  NoDup all_feats → NoDup S → S ⊆ all_feats →
  let X := one_hot S all_feats in
  columns X = all_feats ∧
  length (row0 X) = length all_feats ∧
  (∀ i f, all_feats !! i = Some f →
     row0 X !! i = Some (if bool_decide (f ∈ S) then 1%Z else 0%Z)) ∧
  (∀ i f, all_feats !! i = Some f → (row0 X !! i = Some 1%Z ↔ f ∈ S)) ∧
  count_ones (row0 X)
  = size ((list_to_set S : gset string) ∩ list_to_set all_feats) ∧
  count_ones (row0 X) = length S.
Proof.
  intros Hnd HndS Hsub X.
  assert (Hrow : row0 X = map (indicator S) all_feats).
  { subst X. by rewrite one_hot_row0, ensure_labels_subset. }
  assert (Hcell : ∀ i f, all_feats !! i = Some f →
            row0 X !! i = Some (if bool_decide (f ∈ S) then 1%Z else 0%Z)).
  { intros i f Hi. by rewrite Hrow, list_lookup_fmap, Hi. }
  assert (Hcount : count_ones (row0 X)
            = size ((list_to_set S : gset string) ∩ list_to_set all_feats)).
  { rewrite Hrow, count_ones_indicator.
    rewrite <- (size_list_to_set (C := gset string))
      by by apply NoDup_filter.
    f_equal. apply set_eq. intros x.
    rewrite elem_of_intersection, !elem_of_list_to_set, list_elem_of_filter.
    tauto. }
  split_and!.
  - subst X. by rewrite one_hot_columns, ensure_labels_subset.
  - by rewrite Hrow, length_map.
  - done.
  - intros i f Hi. rewrite (Hcell i f Hi).
    case_bool_decide; split; intros; try done; congruence.
  - done.
  - rewrite Hcount, <- (size_list_to_set (C := gset string) S) by done.
    f_equal. apply set_eq. intros x.
    rewrite elem_of_intersection, !elem_of_list_to_set.
    split; [tauto|]. intros Hx. split; [done|]. by apply Hsub.
Qed.

Lemma one_hot_subset_witness :
  let X := one_hot ["cough"; "rash"] ["fever"; "cough"; "rash"; "nausea"] in
  row0 X = [0; 1; 1; 0]%Z ∧ count_ones (row0 X) = 2.
Proof.
  pose proof (one_hot_subset ["cough"; "rash"]
                ["fever"; "cough"; "rash"; "nausea"]) as H.
  assert (Hnd : NoDup ["fever"; "cough"; "rash"; "nausea"])
    by (apply (bool_decide_unpack _); vm_compute; exact I).
  assert (HndS : NoDup ["cough"; "rash"])
    by (apply (bool_decide_unpack _); vm_compute; exact I).
  assert (Hsub : ["cough"; "rash"] ⊆ ["fever"; "cough"; "rash"; "nausea"])
    by (apply (bool_decide_unpack _); vm_compute; exact I).
  specialize (H Hnd HndS Hsub). destruct H as (_ & _ & _ & _ & _ & Hcount).
  split; [reflexivity|]. rewrite Hcount. reflexivity.
Defined.

(** C2 as stated fails: an identifier outside the feature list changes the
    encoded row.  The row for ["fever"; "zzz"] has a third cell, for the
    column "zzz" that the assignment adds; the row for ["fever"] alone has
    two. *)
Lemma one_hot_unknown_counterexample :
  one_hot ["fever"; "zzz"] ["fever"; "cough"]
  = {| columns := ["fever"; "cough"; "zzz"]; row0 := [1; 0; 1]%Z |} ∧
  one_hot ["fever"] ["fever"; "cough"]
  = {| columns := ["fever"; "cough"]; row0 := [1; 0]%Z |} ∧
  one_hot ["fever"; "zzz"] ["fever"; "cough"]
  ≠ one_hot (known ["fever"; "zzz"] ["fever"; "cough"]) ["fever"; "cough"].
Proof.
  split; [vm_compute; reflexivity|]. split; [vm_compute; reflexivity|].
  vm_compute. intros H. discriminate H.
Qed.

(** C2, amended.  The encoder returns a frame for every selection, also
    one with identifiers outside the feature list.  Those identifiers are not
    ignored: each of them becomes an extra column after the feature columns,
    holding 1, so the row is longer than the feature list.  The cells of the
    feature columns are those of the encoding of the known identifiers
    alone. *)
Theorem one_hot_unknown_appended (S all_feats : list string) :
  NoDup all_feats → NoDup S →
  ∃ extra,
    NoDup extra ∧ (∀ u, u ∈ extra ↔ u ∈ S ∧ u ∉ all_feats) ∧
    columns (one_hot S all_feats) = all_feats ++ extra ∧
    row0 (one_hot S all_feats)
    = row0 (one_hot (known S all_feats) all_feats)
        ++ replicate (length extra) 1%Z.
Proof.
  intros _ _.
  destruct (ensure_labels_extra S all_feats) as (extra & Heq & Hnd & Hin).
  exists extra. split; [done|]. split; [done|]. split.
  - by rewrite one_hot_columns.
  - rewrite !one_hot_row0, Heq, map_app.
    rewrite (ensure_labels_subset (known S all_feats)).
    2: { intros x Hx. unfold known in Hx.
         by apply list_elem_of_filter in Hx as [? _]. }
    f_equal.
    + apply map_ext_in. intros c Hc%list_elem_of_In. unfold indicator, known.
      repeat case_bool_decide; try done; exfalso.
      * match goal with H : ¬ _ |- _ => apply H end.
        by apply list_elem_of_filter.
      * match goal with H : _ ∈ filter _ _ |- _ =>
          apply list_elem_of_filter in H as [_ ?] end. done.
    + apply indicator_selected. intros u Hu. by apply Hin.
Qed.

(** ** Ranking *)

Example argsort_ascending :
  argsort [2 # 10; 7 # 10; 1 # 10; 5 # 10]%Q = [2; 0; 3; 1].
Proof. vm_compute. reflexivity. Qed.

Example top3_descending :
  top3 [2 # 10; 7 # 10; 1 # 10; 5 # 10]%Q = [1; 3; 0].
Proof. vm_compute. reflexivity. Qed.

(** Flu 0.7, Cold 0.2, Allergy 0.1: all three are shown. *)
Example other_possibilities_all_shown :
  let p := [7 # 10; 2 # 10; 1 # 10]%Q in
  other_possibilities {| probs := p; top_idx := top3 p |}
  = [(0, (7 # 10)%Q); (1, (2 # 10)%Q); (2, (1 # 10)%Q)].
Proof. vm_compute. reflexivity. Qed.

(** An entry below 0.05 is skipped. *)
Example other_possibilities_skips_small :
  let p := [90 # 100; 4 # 100; 6 # 100]%Q in
  other_possibilities {| probs := p; top_idx := top3 p |}
  = [(0, (90 # 100)%Q); (2, (6 # 100)%Q)].
Proof. vm_compute. reflexivity. Qed.

Section sorted_lists.
Context {A : Type} (R : relation A).

Lemma StronglySorted_drop (k : nat) (l : list A) :
  StronglySorted R l → StronglySorted R (drop k l).
Proof.
  intros Hl. rewrite <- (take_drop k l) in Hl.
  by apply StronglySorted_app_1_r in Hl.
Qed.

Lemma StronglySorted_rev (l : list A) :
  StronglySorted R l → StronglySorted (flip R) (rev l).
Proof.
  induction 1 as [|x l Hl IH Hx]; simpl; [constructor|].
  apply StronglySorted_app_2; [|done|repeat constructor].
  intros y z Hy%list_elem_of_In%in_rev%list_elem_of_In Hz.
  apply list_elem_of_singleton in Hz as ->. unfold flip.
  rewrite Forall_forall in Hx. by apply Hx.
Qed.

Lemma StronglySorted_filter (P : A → Prop) `{!∀ x, Decision (P x)} (l : list A) :
  StronglySorted R l → StronglySorted R (filter P l).
Proof.
  induction 1 as [|x l Hl IH Hx]; [constructor|].
  rewrite filter_cons. case_decide; [|done].
  constructor; [done|]. apply Forall_forall.
  intros y [_ Hy]%list_elem_of_filter. rewrite Forall_forall in Hx. by apply Hx.
Qed.
End sorted_lists.

Lemma Qltb_lt (x y : Q) : Qltb x y = true ↔ (x < y)%Q.
Proof.
  unfold Qltb. rewrite negb_true_iff, <- not_true_iff_false, Qle_bool_iff.
  split; [apply Qnot_le_lt | apply Qlt_not_le].
Qed.

Lemma Qltb_ge (x y : Q) : Qltb x y = false ↔ (y <= x)%Q.
Proof.
  unfold Qltb. rewrite negb_false_iff, Qle_bool_iff. done.
Qed.

Lemma insert_idx_elem (p : list Q) (i : nat) (l : list nat) (x : nat) :
  x ∈ insert_idx p i l ↔ x = i ∨ x ∈ l.
Proof.
  induction l as [|j l IH]; simpl; [set_solver|].
  destruct (Qltb _ _); [|set_solver].
  rewrite elem_of_cons, IH. set_solver.
Qed.

Lemma insert_idx_length (p : list Q) (i : nat) (l : list nat) :
  length (insert_idx p i l) = S (length l).
Proof.
  induction l as [|j l IH]; simpl; [done|].
  destruct (Qltb _ _); simpl; by rewrite ?IH.
Qed.

Lemma insert_idx_sorted (p : list Q) (i : nat) (l : list nat) :
  Forall (λ j, i < j) l →
  StronglySorted (ranks_below p) l →
  StronglySorted (ranks_below p) (insert_idx p i l).
Proof.
  intros Hgt Hs. induction Hs as [|j l Hl IH Hj]; simpl.
  - repeat constructor.
  - apply Forall_cons in Hgt as [Hij Hgt].
    destruct (Qltb (prob_at p j) (prob_at p i)) eqn:Hc.
    + apply Qltb_lt in Hc. constructor; [by apply IH|].
      apply Forall_forall. intros x Hx%insert_idx_elem.
      destruct Hx as [->|Hx]; [by left|].
      rewrite Forall_forall in Hj. by apply Hj.
    + apply Qltb_ge in Hc. apply Qle_lteq in Hc.
      assert (Hbelow : ranks_below p i j).
      { destruct Hc as [Hc|Hc]; [by left|by right]. }
      constructor; [by constructor|].
      constructor; [done|].
      rewrite Forall_forall in Hj, Hgt |- *. intros x Hx.
      specialize (Hj x Hx). specialize (Hgt x Hx).
      destruct Hbelow as [H1|[H1 _]], Hj as [H2|[H2 _]].
      * left. by eapply Qlt_trans.
      * left. by rewrite <- H2.
      * left. by rewrite H1.
      * right. split; [|done]. by rewrite H1.
Qed.

Lemma argsort_from (p : list Q) (n a : nat) :
  let l := foldr (insert_idx p) [] (seq a n) in
  StronglySorted (ranks_below p) l ∧ (∀ x, x ∈ l ↔ a ≤ x < a + n) ∧ length l = n.
Proof.
  revert a. induction n as [|n IH]; intros a; simpl.
  - split; [constructor|]. split; [|done]. intros x. set_solver by lia.
  - destruct (IH (S a)) as (Hs & Hin & Hlen). split; [|split].
    + apply insert_idx_sorted; [|done].
      apply Forall_forall. intros x Hx%Hin. lia.
    + intros x. rewrite insert_idx_elem, Hin. lia.
    + by rewrite insert_idx_length, Hlen.
Qed.

Lemma argsort_sorted (p : list Q) : StronglySorted (ranks_below p) (argsort p).
Proof. apply (argsort_from p (length p) 0). Qed.

Lemma argsort_elem (p : list Q) (i : nat) : i ∈ argsort p ↔ i < length p.
Proof.
  destruct (argsort_from p (length p) 0) as (_ & Hin & _).
  unfold argsort. rewrite Hin. lia.
Qed.

Lemma argsort_length (p : list Q) : length (argsort p) = length p.
Proof. apply (argsort_from p (length p) 0). Qed.

Lemma top3_length (p : list Q) : length (top3 p) = length p `min` 3.
Proof.
  unfold top3, last_n. rewrite length_rev, length_drop, argsort_length. lia.
Qed.

Lemma top3_elem (p : list Q) (i : nat) : i ∈ top3 p → i < length p.
Proof.
  unfold top3, last_n. intros Hi%list_elem_of_In%in_rev%list_elem_of_In.
  apply argsort_elem. by eapply subseteq_drop.
Qed.

Lemma top3_sorted (p : list Q) :
  StronglySorted (flip (ranks_below p)) (top3 p).
Proof.
  unfold top3, last_n. apply StronglySorted_rev, StronglySorted_drop.
  apply argsort_sorted.
Qed.

Lemma ranks_below_le (p : list Q) (i j : nat) :
  ranks_below p i j → (prob_at p i <= prob_at p j)%Q.
Proof.
  intros [Hlt|[Heq _]]; [by apply Qlt_le_weak|]. rewrite Heq. apply Qle_refl.
Qed.

Lemma ranks_below_irrefl (p : list Q) (i : nat) : ¬ ranks_below p i i.
Proof. intros [Hlt|[_ Hi]]; [by apply Qlt_irrefl in Hlt|lia]. Qed.

Lemma StronglySorted_irrefl_NoDup {A} (R : relation A) (l : list A) :
  (∀ x, ¬ R x x) → StronglySorted R l → NoDup l.
Proof.
  intros Hirr. induction 1 as [|x l Hl IH Hx]; constructor; [|done].
  intros Hin. rewrite Forall_forall in Hx. by apply (Hirr x), Hx.
Qed.

Lemma StronglySorted_weaken {A} (R R' : relation A) (l : list A) :
  (∀ x y, R x y → R' x y) → StronglySorted R l → StronglySorted R' l.
Proof.
  intros Himp. induction 1 as [|x l Hl IH Hx]; constructor; [done|].
  eapply Forall_impl; [exact Hx|]. intros y. apply Himp.
Qed.

Lemma argsort_NoDup (p : list Q) : NoDup (argsort p).
Proof.
  eapply StronglySorted_irrefl_NoDup; [apply ranks_below_irrefl|].
  apply argsort_sorted.
Qed.

(** The index-order sort is one of the results [np.argsort] may give. *)
Lemma argsort_is_argsort (p : list Q) : is_argsort p (argsort p).
Proof.
  split_and!.
  - apply argsort_NoDup.
  - apply argsort_elem.
  - eapply StronglySorted_weaken; [|apply argsort_sorted].
    intros i j. apply ranks_below_le.
Qed.

(** The stored [top_idx] of the model is [top3_of] at that sort. *)
Lemma top3_top3_of (p : list Q) : top3 p = top3_of (argsort p).
Proof. reflexivity. Qed.

(** C3 as stated fails on a tie.  The code leaves the order of equal
    probabilities to [np.argsort], whose result may keep them in index
    order; then for the distribution [1/2; 1/2] the page lists class 1
    before class 0, against the order of the class list. *)
Lemma other_possibilities_ties_counterexample :
  let p := [1 # 2; 1 # 2]%Q in
  let idx := [0; 1] in
  let shown := other_possibilities {| probs := p; top_idx := top3_of idx |} in
  is_argsort p idx ∧
  shown = [(1, (1 # 2)%Q); (0, (1 # 2)%Q)] ∧ ¬ ranked_as_claimed shown.
Proof.
  split; [|split].
  - apply (argsort_is_argsort [1 # 2; 1 # 2]%Q).
  - vm_compute. reflexivity.
  - intros (_ & _ & Hs). vm_compute in Hs.
    apply StronglySorted_cons in Hs as [Hhd _].
    apply Forall_cons in Hhd as [[Hlt|[_ Hidx]] _].
    + vm_compute in Hlt. discriminate Hlt.
    + lia.
Qed.

(** C3, amended.  Whatever order [np.argsort] gives to equal probabilities,
    the "other possibilities" list has at most three entries, each one an
    index of the distribution with its probability, none below 0.05, and
    no entry is more probable than one before it.  Nothing is claimed of
    the order of entries of equal probability. *)
Theorem other_possibilities_ranked (p : list Q) (idx : list nat) :
  is_argsort p idx →
  let shown := other_possibilities {| probs := p; top_idx := top3_of idx |} in
  (length shown ≤ 3)%nat ∧
  Forall (λ e, e.1 < length p ∧ e.2 = prob_at p e.1 ∧ (threshold <= e.2)%Q) shown ∧
  StronglySorted (λ a b, (b.2 <= a.2)%Q) shown.
Proof.
  intros (Hnd & Hin & Hs). unfold other_possibilities, top3_of, last_n; simpl.
  split; [|split].
  - rewrite length_map.
    etrans; [apply length_filter|]. rewrite length_rev, length_drop. lia.
  - apply Forall_forall. intros [i q] Hi%list_elem_of_fmap.
    destruct Hi as (j & [= -> ->] & Hj%list_elem_of_filter).
    destruct Hj as [Hge Hj]. simpl. split; [|split; [done|by apply Qltb_ge]].
    apply Hin. apply list_elem_of_In, in_rev, list_elem_of_In in Hj.
    by eapply subseteq_drop.
  - apply (StronglySorted_fmap _
             (flip (λ i j, (prob_at p i <= prob_at p j)%Q))).
    + intros i j Hij. exact Hij.
    + by apply StronglySorted_filter, StronglySorted_rev, StronglySorted_drop.
Qed.

Lemma other_possibilities_ranked_witness :
  let p := [3 # 10; 3 # 10; 4 # 10]%Q in
  is_argsort p (argsort p) ∧
  StronglySorted (λ a b, (b.2 <= a.2)%Q)
    (other_possibilities {| probs := p; top_idx := top3_of (argsort p) |}).
Proof.
  split; [apply argsort_is_argsort|].
  destruct (other_possibilities_ranked [3 # 10; 3 # 10; 4 # 10]%Q
              (argsort [3 # 10; 3 # 10; 4 # 10]%Q)
              (argsort_is_argsort _)) as (_ & _ & H).
  exact H.
Defined.

(** ** Predict handler *)

Example lower_label : lower "Flu" = "flu" ∧ lower "Type 2 Diabetes" = "type 2 diabetes".
Proof. split; vm_compute; reflexivity. Qed.

(** A first prediction in a fresh session. *)
Example on_predict_fresh :
  on_predict demo_model ["fever"; "cough"] demo_mapping true ["fever"]
    initial_session
  = ({| last_prediction := Some (LStr "Flu");
        recommended_specialty := Some "Infectious Disease";
        taxonomy_code := Some "207RI0200X";
        prediction_probs :=
          Some {| probs := [7 # 10; 3 # 10]%Q; top_idx := [0; 1] |};
        show_providers := false |}, []).
Proof. vm_compute. reflexivity. Qed.

(** The button is disabled while nothing is selected: no action. *)
Example on_predict_nothing_selected (st : Session) :
  on_predict demo_model ["fever"; "cough"] demo_mapping true [] st = (st, []).
Proof. reflexivity. Qed.

Ltac run_body :=
  unfold predict_body, mbind, M_bind, mret, M_ret, raise, call,
    set_last_prediction, set_show_providers, set_prediction_probs,
    set_recommended_specialty, set_taxonomy_code in *; simpl in *.

Lemma str_or_empty_r (a : string) : str_or a "" = a.
Proof. unfold str_or. by case_bool_decide. Qed.

Lemma on_predict_caught model all_symptoms m selected st st' e :
  selected ≠ [] →
  predict_body model all_symptoms m selected st = (st', inl e) →
  on_predict model all_symptoms m true selected st
  = (st', [StError [Lit "Prediction failed: "; Lit (exn_msg e)]]).
Proof.
  intros Hsel Hrun. unfold on_predict.
  rewrite bool_decide_true by done. simpl. by rewrite Hrun.
Qed.


(** C1 as stated fails: when the probability estimate raises, the error is
    shown, but [last_prediction] and [show_providers] were already written. *)
Lemma predict_error_counterexample :
  let '(st', events) :=
    on_predict flaky_model ["fever"; "cough"] ∅ true ["fever"] earlier_session in
  events = [StError [Lit "Prediction failed: "; Lit "boom"]] ∧
  last_prediction st' = Some (LStr "Flu") ∧
  last_prediction st' ≠ last_prediction earlier_session ∧
  show_providers st' = false ∧
  show_providers st' ≠ show_providers earlier_session.
Proof. vm_compute. repeat split; congruence. Qed.

(** C1, amended.  An exception raised in the [try] body is caught and shown
    as "Prediction failed: ..."; [recommended_specialty] and [taxonomy_code]
    keep their values.  (The encoder returns for every selection, so the
    first step that can raise is the prediction.)  When the prediction itself raises, the whole session
    state is unchanged.  When a later step raises (probability estimate,
    specialty resolution), [last_prediction] already holds the new label and
    [show_providers] is already false, and [prediction_probs] holds the new
    table if the estimate had succeeded and its old value otherwise. *)
Theorem predict_error_state model all_symptoms m selected st st' e :
  selected ≠ [] →
  predict_body model all_symptoms m selected st = (st', inl e) →
  let X := one_hot selected all_symptoms in
  on_predict model all_symptoms m true selected st
  = (st', [StError [Lit "Prediction failed: "; Lit (exn_msg e)]]) ∧
  recommended_specialty st' = recommended_specialty st ∧
  taxonomy_code st' = taxonomy_code st ∧
  (∀ e', predict model X = inl e' → st' = st ∧ e = e') ∧
  (∀ y, predict model X = inr y →
     last_prediction st' = Some y ∧ show_providers st' = false ∧
     match predict_proba model with
     | Some proba =>
         match proba X with
         | inr p => prediction_probs st' = Some {| probs := p; top_idx := top3 p |}
         | inl e' => prediction_probs st' = prediction_probs st ∧ e = e'
         end
     | None => prediction_probs st' = prediction_probs st
     end).
Proof.
  intros Hsel Hrun X. split; [by apply on_predict_caught|].
  subst X. run_body.
  destruct (predict model _) as [e0|y].
  { injection Hrun as <- <-. repeat split; intros; congruence. }
  destruct (predict_proba model) as [proba|].
  - destruct (proba _) as [e1|p].
    { injection Hrun as <- <-. simpl.
      repeat split; try congruence; intros ? [= <-]; done. }
    destruct y as [y|n].
    + destruct (resolve_specialty m y) as [[spec tax]|]; discriminate Hrun.
    + injection Hrun as <- <-. simpl.
      repeat split; try congruence; intros ? [= <-]; done.
  - destruct y as [y|n].
    + destruct (resolve_specialty m y) as [[spec tax]|]; discriminate Hrun.
    + injection Hrun as <- <-. simpl.
      repeat split; try congruence; intros ? [= <-]; done.
Qed.

Lemma predict_error_state_witness :
  ∃ st',
    on_predict flaky_model ["fever"; "cough"] ∅ true ["fever"] earlier_session
    = (st', [StError [Lit "Prediction failed: "; Lit "boom"]]) ∧
    recommended_specialty st' = Some "Family Medicine" ∧
    taxonomy_code st' = Some "207Q00000X".
Proof.
  eexists.
  assert (Hsel : ["fever"] ≠ ([] : list string)) by discriminate.
  pose proof (predict_error_state flaky_model ["fever"; "cough"] ∅ ["fever"]
                earlier_session _ (Raised "boom") Hsel eq_refl) as H.
  simpl in H. destruct H as (H1 & H2 & H3 & _).
  split; [exact H1|]. split; [exact H2|exact H3].
Defined.





(** ** Specialty resolution *)

(** C6.  A label of ASCII characters is looked up by its lowercase form
    first and as it is second.  A row that is found gives the Specialization field as the
    specialty, the Classification field when Specialization is empty, and the
    Taxonomy Code field as the taxonomy code.  A mapping with a row "flu"
    whose Specialization is "Infectious Disease" resolves "Flu" to that
    specialty, and the empty mapping resolves no label. *)
Theorem specialty_resolution (m : gmap string SpecialtyInfo) (y : string) :
  is_ascii y = true →
  (∀ info, m !! lower y = Some info →
     resolve_specialty m y = Some (specialty_of info, Taxonomy_Code info)) ∧
  (∀ info, m !! lower y = None → m !! y = Some info →
     resolve_specialty m y = Some (specialty_of info, Taxonomy_Code info)) ∧
  (m !! lower y = None → m !! y = None → resolve_specialty m y = None) ∧
  (∀ info, Specialization info ≠ "" → specialty_of info = Specialization info) ∧
  (∀ info, Specialization info = "" → specialty_of info = Classification info) ∧
  (∀ info, m !! "flu" = Some info → Specialization info = "Infectious Disease" →
     fst <$> resolve_specialty m "Flu" = Some "Infectious Disease") ∧
  resolve_specialty ∅ y = None.
Proof.
  intros _. unfold resolve_specialty, lookup_info, specialty_of, taxonomy_of.
  split_and!.
  - intros info ->. by rewrite !str_or_empty_r.
  - intros info -> ->. by rewrite !str_or_empty_r.
  - by intros -> ->.
  - intros info Hne. rewrite str_or_empty_r. unfold str_or.
    by rewrite bool_decide_false.
  - intros info ->. by rewrite str_or_empty_r.
  - intros info Hm Hs. change (lower "Flu") with "flu". rewrite Hm. simpl.
    by rewrite str_or_empty_r, Hs.
  - by rewrite !lookup_empty.
Qed.

Lemma specialty_resolution_witness :
  is_ascii "Flu" = true ∧
  resolve_specialty demo_mapping "Flu"
  = Some ("Infectious Disease", "207RI0200X") ∧
  fst <$> resolve_specialty demo_mapping "Flu" = Some "Infectious Disease".
Proof.
  destruct (specialty_resolution demo_mapping "Flu" eq_refl)
    as (Hlow & _ & _ & _ & _ & Hflu & _).
  split; [reflexivity|]. split.
  { apply (Hlow (mkInfo "Infectious Disease" "Internal Medicine" "207RI0200X")).
    vm_compute. reflexivity. }
  apply (Hflu (mkInfo "Infectious Disease" "Internal Medicine" "207RI0200X"));
    [vm_compute|]; reflexivity.
Defined.

(** ** Provider lookup *)

Example full_url_with_location :
  full_url id "Cardiology" 5
    (Some [("city", "Seattle"); ("state", "WA"); ("postal_code", "")])
  = "https://npiregistry.cms.hhs.gov/api/?taxonomy_description=Cardiology&limit=5&version=2.1&pretty=&city=Seattle&state=WA".
Proof. vm_compute. reflexivity. Qed.

Example fetch_passes_body_through :
  fetch_providers_by_specialty id
    (λ _, Response 200 (inr (JDict [("result_count", JNum 1); ("results", JList [JDict []])])))
    "Cardiology" 5 None
  = JDict [("result_count", JNum 1); ("results", JList [JDict []])].
Proof. reflexivity. Qed.

(** C7.  A response whose status is not 200 and an exception of the
    transport (or of the decoding of the body) both give a dictionary with the
    single key "error": the lookup returns it, nothing is raised.  Its value
    names the status code, or is the text of the exception.  For a 404
    response the value ends in "404". *)
Theorem fetch_error_result (quote : string → string)
    (requests_get : string → http_outcome) (specialty : string) (limit : Z)
    (location : option (list (string * string))) :
  let url := full_url quote specialty limit location in
  let result :=
    fetch_providers_by_specialty quote requests_get specialty limit location in
  (∀ status body, requests_get url = Response status body → status ≠ 200%Z →
     result = JDict [("error",
       JStr ("API request failed with status code " +:+ pretty status))]) ∧
  (∀ e, requests_get url = Failure e →
     result = JDict [("error", JStr (exn_msg e))]) ∧
  (∀ e, requests_get url = Response 200 (inl e) →
     result = JDict [("error", JStr (exn_msg e))]) ∧
  (∀ body, requests_get url = Response 404 body →
     result = JDict [("error", JStr "API request failed with status code 404")]).
Proof.
  intros url result. subst url result. unfold fetch_providers_by_specialty.
  split_and!.
  - intros status body -> Hne.
    by apply Z.eqb_neq in Hne as ->.
  - by intros e ->.
  - by intros e ->.
  - by intros body ->.
Qed.

Lemma fetch_error_result_witness :
  fetch_providers_by_specialty id (λ _, Response 404 (inr JNull))
    "Infectious Disease" 5 None
  = JDict [("error", JStr "API request failed with status code 404")] ∧
  fetch_providers_by_specialty id (λ _, Response 503 (inr JNull))
    "Infectious Disease" 5 None
  = JDict [("error", JStr "API request failed with status code 503")] ∧
  fetch_providers_by_specialty id (λ _, Failure (Raised "Connection refused"))
    "Infectious Disease" 5 None
  = JDict [("error", JStr "Connection refused")].
Proof.
  split_and!.
  - destruct (fetch_error_result id (λ _, Response 404 (inr JNull))
                "Infectious Disease" 5 None) as (_ & _ & _ & H).
    apply (H (inr JNull)). reflexivity.
  - destruct (fetch_error_result id (λ _, Response 503 (inr JNull))
                "Infectious Disease" 5 None) as (H & _).
    apply (H 503%Z (inr JNull)); [reflexivity|vm_compute; discriminate].
  - destruct (fetch_error_result id (λ _, Failure (Raised "Connection refused"))
                "Infectious Disease" 5 None) as (_ & H & _).
    apply (H (Raised "Connection refused")). reflexivity.
Defined.

(** ** Rendering of the lookup result *)

Ltac run_render :=
  unfold render_provider_results, mbind, R_bind, mret, R_ret, lift, emit,
    contains, subscript, get; cbv beta iota.

Lemma truthy_dict (d : list (string * json)) (k : string) :
  is_Some (assoc k d) → truthy (JDict d) = true.
Proof. destruct d; [by intros [? ?]|done]. Qed.

Lemma render_dict_without_results (d : list (string * json)) :
  assoc "results" d = None →
  render_provider_results (JDict d) = ([no_results_warning], inr ()).
Proof.
  intros Hres. run_render. rewrite Hres.
  rewrite (bool_decide_false (is_Some None)) by (by intros [? ?]).
  by destruct (truthy (JDict d)).
Qed.

Lemma render_dict_empty_result (d : list (string * json)) :
  is_Some (assoc "results" d) → assoc "error" d = None →
  eq_zero (default (JNum 0) (assoc "result_count" d)) = true →
  render_provider_results (JDict d) = ([no_providers_notice], inr ()).
Proof.
  intros Hres Herr Hcount. run_render.
  rewrite (truthy_dict d "results") by done.
  rewrite bool_decide_true by done. cbv beta iota. simpl negb. cbv iota.
  rewrite Herr, (bool_decide_false (is_Some None)) by (by intros [? ?]).
  cbv beta iota. by rewrite Hcount.
Qed.

Lemma Forall_bind_events {A B} (P : ui_event → Prop) (m : R A) (f : A → R B) :
  Forall P m.1 → (∀ a, Forall P (f a).1) → Forall P (m ≫= f).1.
Proof.
  intros Hm Hf. destruct m as [ev [c|a]]; simpl in *; [done|].
  specialize (Hf a). destruct (f a) as [ev' r]; simpl in *.
  by apply Forall_app.
Qed.

Ltac no_error :=
  repeat first
    [ apply Forall_nil_2
    | apply Forall_singleton; reflexivity
    | apply Forall_bind_events; [|intros ?]
    | match goal with
      | |- Forall _ (fst (if ?b then _ else _)) => destruct b
      end ].

Lemma render_provider_no_error (provider : json) :
  Forall (λ ev, is_st_error ev = false) (render_provider provider).1.
Proof. unfold render_provider, render_address, render_taxonomy. no_error. Qed.

Lemma for_each_no_error (body : json → R unit) (items : list json) :
  (∀ x, Forall (λ ev, is_st_error ev = false) (body x).1) →
  Forall (λ ev, is_st_error ev = false) (for_each body items).1.
Proof.
  intros Hbody. induction items as [|x items IH]; simpl; [constructor|].
  by apply Forall_bind_events.
Qed.

Lemma R_bind_pure {A B} (a : A) (f : A → R B) : (lift (inr a) ≫= f) = f a.
Proof. unfold mbind, R_bind, lift. by destruct (f a). Qed.

Lemma R_bind_ret {A B} (a : A) (f : A → R B) : (mret a ≫= f) = f a.
Proof. apply R_bind_pure. Qed.

Lemma render_no_error (results : json) :
  contains "error" results ≠ inr true →
  Forall (λ ev, is_st_error ev = false) (render_provider_results results).1.
Proof.
  intros Hne. unfold render_provider_results.
  destruct (truthy results);
    [|rewrite R_bind_ret; by repeat constructor].
  destruct (contains "results" results) as [c|[|]];
    [by constructor| |rewrite R_bind_pure, !R_bind_ret; by repeat constructor].
  rewrite R_bind_pure, !R_bind_ret. simpl negb. cbv iota.
  destruct (contains "error" results) as [c|[|]];
    [by constructor|done|].
  rewrite R_bind_pure.
  no_error. by apply for_each_no_error, render_provider_no_error.
Qed.

(** The lookup either passes on the body of a 200 response or builds a
    dictionary with the one key "error". *)
Lemma fetch_cases (quote : string → string)
    (requests_get : string → http_outcome) (specialty : string) (limit : Z)
    (location : option (list (string * string))) :
  let url := full_url quote specialty limit location in
  let result :=
    fetch_providers_by_specialty quote requests_get specialty limit location in
  (∃ j, requests_get url = Response 200 (inr j) ∧ result = j) ∨
  ((∀ j, requests_get url ≠ Response 200 (inr j)) ∧
   ∃ reason, result = JDict [("error", JStr reason)]).
Proof.
  intros url result. subst result. unfold fetch_providers_by_specialty. fold url.
  destruct (requests_get url) as [status [e|j]|e].
  - right. split; [congruence|]. destruct (status =? 200)%Z; eauto.
  - destruct (status =? 200)%Z eqn:Hs.
    + apply Z.eqb_eq in Hs as ->. left. eauto.
    + right. split; [|eauto]. intros j' [= -> _]. discriminate Hs.
  - right. split; [congruence|]. eauto.
Qed.

(** A lookup that did not get a decoded 200 response is shown as the
    generic warning. *)
Lemma on_search_failed (quote : string → string)
    (requests_get : string → http_outcome) (specialty : string) (limit : Z)
    (location : option (list (string * string))) :
  (∀ j, requests_get (full_url quote specialty limit location)
        ≠ Response 200 (inr j)) →
  on_search quote requests_get specialty limit location
  = ([no_results_warning], inr ()).
Proof.
  intros Hnot. unfold on_search.
  destruct (fetch_cases quote requests_get specialty limit location)
    as [(j & Hj & _)|[_ [reason ->]]]; [by destruct (Hnot j)|].
  by apply render_dict_without_results.
Qed.

(** A dictionary with both a "results" and an "error" entry is shown as the
    error message. *)
Lemma render_dict_error (d : list (string * json)) (reason : json) :
  is_Some (assoc "results" d) → assoc "error" d = Some reason →
  render_provider_results (JDict d) = ([error_message reason], inr ()).
Proof.
  intros Hres Herr. run_render.
  rewrite (truthy_dict d "results") by done.
  rewrite bool_decide_true by done. cbv beta iota. simpl negb. cbv iota.
  rewrite Herr, bool_decide_true by eauto. done.
Qed.

(** The error message is shown for such dictionaries only. *)
Lemma render_error_shown (results : json) (t : text) :
  StError t ∈ (render_provider_results results).1 →
  ∃ d reason, results = JDict d ∧ is_Some (assoc "results" d) ∧
              assoc "error" d = Some reason.
Proof.
  intros Hin.
  assert (Hno : Forall (λ ev, is_st_error ev = false)
                  (render_provider_results results).1 → False).
  { rewrite Forall_forall. intros Hall. by specialize (Hall _ Hin). }
  destruct (contains "error" results) as [c|[|]] eqn:Hc;
    [destruct Hno; apply render_no_error; by rewrite Hc| |
     destruct Hno; apply render_no_error; by rewrite Hc].
  destruct results as [| | |s|l|d]; try discriminate Hc.
  - destruct Hno. unfold render_provider_results.
    destruct (truthy (JStr s));
      [|rewrite R_bind_ret; by repeat constructor].
    destruct (contains "results" (JStr s)) as [c|[|]];
      [by constructor| |rewrite R_bind_pure, !R_bind_ret; by repeat constructor].
    rewrite R_bind_pure, !R_bind_ret. simpl negb. cbv iota.
    rewrite Hc, R_bind_pure. by constructor.
  - destruct Hno. unfold render_provider_results.
    destruct (truthy (JList l));
      [|rewrite R_bind_ret; by repeat constructor].
    destruct (contains "results" (JList l)) as [c|[|]];
      [by constructor| |rewrite R_bind_pure, !R_bind_ret; by repeat constructor].
    rewrite R_bind_pure, !R_bind_ret. simpl negb. cbv iota.
    rewrite Hc, R_bind_pure. by constructor.
  - injection Hc as Hc. apply bool_decide_eq_true in Hc as [reason Hr].
    exists d, reason. split; [done|]. split; [|done].
    destruct (assoc "results" d) eqn:Hres; [eauto|].
    destruct Hno. rewrite render_dict_without_results by done.
    by repeat constructor.
Qed.

(** C8 as stated fails for two 200 responses with [result_count] 0.  A body
    without a "results" entry is shown as the warning that a 404 response
    gets, and a body that also has an "error" entry is shown as an error
    message; neither is shown as the "no providers found" notice. *)
Lemma empty_result_counterexample :
  let bare := JDict [("result_count", JNum 0)] in
  let faulty := JDict [("result_count", JNum 0); ("results", JList []);
                       ("error", JStr "quota exceeded")] in
  let search (outcome : http_outcome) :=
    on_search id (λ _, outcome) "Infectious Disease" 5 None in
  fetch_providers_by_specialty id (λ _, Response 200 (inr bare))
    "Infectious Disease" 5 None = bare ∧
  search (Response 200 (inr bare)) = ([no_results_warning], inr ()) ∧
  search (Response 200 (inr bare)) = search (Response 404 (inr JNull)) ∧
  search (Response 200 (inr faulty))
  = ([error_message (JStr "quota exceeded")], inr ()) ∧
  search (Response 200 (inr bare)) ≠ ([no_providers_notice], inr ()) ∧
  search (Response 200 (inr faulty)) ≠ ([no_providers_notice], inr ()).
Proof. vm_compute. split_and!; first [reflexivity|discriminate]. Qed.

(** C8, amended.  A 200 response whose body is a dictionary with
    [result_count] 0, a "results" entry and no "error" entry is returned by
    the lookup as it is and shown as the notice "No providers found for this
    specialty in the selected location." and nothing else.  Every lookup
    that did not get a decoded 200 response is shown as the warning "No
    provider results found.", which is a different outcome on the page. *)
Theorem empty_result_outcome (quote : string → string)
    (requests_get : string → http_outcome) (specialty : string) (limit : Z)
    (location : option (list (string * string))) (d : list (string * json)) :
  requests_get (full_url quote specialty limit location)
  = Response 200 (inr (JDict d)) →
  assoc "result_count" d = Some (JNum 0) →
  is_Some (assoc "results" d) →
  assoc "error" d = None →
  let shown := on_search quote requests_get specialty limit location in
  fetch_providers_by_specialty quote requests_get specialty limit location
  = JDict d ∧
  shown = ([no_providers_notice], inr ()) ∧
  (∀ failing specialty' limit' location',
     (∀ j, failing (full_url quote specialty' limit' location')
           ≠ Response 200 (inr j)) →
     on_search quote failing specialty' limit' location'
     = ([no_results_warning], inr ()) ∧
     on_search quote failing specialty' limit' location' ≠ shown).
Proof.
  intros Hget Hcount Hres Herr shown.
  assert (Hfetch : fetch_providers_by_specialty quote requests_get specialty
                     limit location = JDict d).
  { unfold fetch_providers_by_specialty. by rewrite Hget. }
  assert (Hshown : shown = ([no_providers_notice], inr ())).
  { subst shown. unfold on_search. rewrite Hfetch.
    apply render_dict_empty_result; [done|done|]. by rewrite Hcount. }
  split_and!; [done|done|].
  intros failing specialty' limit' location' Hnot.
  rewrite Hshown, (on_search_failed _ _ _ _ _ Hnot). split; [done|].
  discriminate.
Qed.

Lemma empty_result_outcome_witness :
  let empty := JDict [("result_count", JNum 0); ("results", JList [])] in
  on_search id (λ _, Response 200 (inr empty)) "Infectious Disease" 5
    (Some [("city", "Seattle"); ("state", "WA"); ("postal_code", "")])
  = ([no_providers_notice], inr ()) ∧
  on_search id (λ _, Response 404 (inr JNull)) "Infectious Disease" 5 None
  ≠ on_search id (λ _, Response 200 (inr empty)) "Infectious Disease" 5
      (Some [("city", "Seattle"); ("state", "WA"); ("postal_code", "")]).
Proof.
  destruct (empty_result_outcome id
              (λ _, Response 200
                      (inr (JDict [("result_count", JNum 0); ("results", JList [])])))
              "Infectious Disease" 5
              (Some [("city", "Seattle"); ("state", "WA"); ("postal_code", "")])
              [("result_count", JNum 0); ("results", JList [])]
              eq_refl eq_refl (ex_intro _ (JList []) eq_refl) eq_refl)
    as (_ & Hshown & Hother).
  split; [exact Hshown|].
  apply (Hother (λ _, Response 404 (inr JNull)) "Infectious Disease" 5%Z None).
  intros j. discriminate.
Defined.

(** C10 as stated fails for a 200 response whose body has both a "results"
    and an "error" entry: the lookup returns the body as it is, and the
    page shows the error reason. *)
Lemma error_branch_counterexample :
  let body := JDict [("results", JList []); ("error", JStr "quota exceeded")] in
  let requests_get := λ _ : string, Response 200 (inr body) in
  fetch_providers_by_specialty id requests_get "Infectious Disease" 5 None
  = body ∧
  on_search id requests_get "Infectious Disease" 5 None
  = ([StError [Lit "Error fetching providers: "; Fmt (JStr "quota exceeded")]],
     inr ()).
Proof. vm_compute. split; reflexivity. Qed.

(** C10, amended.  A dictionary with an "error" key and no "results" key is
    shown as the warning "No provider results found." and nothing else.
    Every result that the lookup builds itself, for a response that is not
    200, a body that does not decode or a failed request, is a dictionary
    with the one key "error", so the search shows that warning and never the
    error reason.  The body of a 200 response is returned as it is: the
    branch that shows the error reason is reached exactly for such a body
    that is a dictionary with both an "error" and a "results" entry. *)
Theorem error_result_rendering (quote : string → string)
    (requests_get : string → http_outcome) (specialty : string) (limit : Z)
    (location : option (list (string * string))) :
  let url := full_url quote specialty limit location in
  let result :=
    fetch_providers_by_specialty quote requests_get specialty limit location in
  let shown := on_search quote requests_get specialty limit location in
  (∀ d, is_Some (assoc "error" d) → assoc "results" d = None →
     render_provider_results (JDict d) = ([no_results_warning], inr ())) ∧
  ((∀ j, requests_get url ≠ Response 200 (inr j)) →
     (∃ reason, result = JDict [("error", JStr reason)]) ∧
     shown = ([no_results_warning], inr ())) ∧
  (∀ t, StError t ∈ shown.1 →
     ∃ d reason, requests_get url = Response 200 (inr (JDict d)) ∧
                 is_Some (assoc "results" d) ∧
                 assoc "error" d = Some reason) ∧
  (∀ d reason, requests_get url = Response 200 (inr (JDict d)) →
     is_Some (assoc "results" d) → assoc "error" d = Some reason →
     shown = ([error_message reason], inr ())).
Proof.
  intros url result shown.
  pose proof (fetch_cases quote requests_get specialty limit location) as Hcases.
  cbv zeta in Hcases. fold url result in Hcases.
  split_and!.
  - intros d _ Hres. by apply render_dict_without_results.
  - intros Hnot. destruct Hcases as [(j & Hj & _)|[_ [reason Hr]]];
      [by destruct (Hnot j)|].
    split; [eauto|]. by apply on_search_failed.
  - intros t Hin. subst shown. unfold on_search in Hin. fold result in Hin.
    destruct Hcases as [(j & Hj & Hr)|[_ [reason Hr]]]; rewrite Hr in Hin.
    + apply render_error_shown in Hin as (d & reason & -> & Hres & Herr).
      eauto.
    + rewrite render_dict_without_results in Hin by done.
      apply list_elem_of_singleton in Hin. discriminate Hin.
  - intros d reason Hget Hres Herr. subst shown. unfold on_search.
    assert (Hfetch : fetch_providers_by_specialty quote requests_get specialty
                       limit location = JDict d).
    { unfold fetch_providers_by_specialty. fold url. by rewrite Hget. }
    rewrite Hfetch. by apply render_dict_error.
Qed.

Lemma error_result_rendering_witness :
  on_search id (λ _, Response 404 (inr JNull)) "Infectious Disease" 5 None
  = ([no_results_warning], inr ()) ∧
  on_search id (λ _, Failure (Raised "Connection refused"))
    "Infectious Disease" 5 None
  = ([no_results_warning], inr ()) ∧
  on_search id
    (λ _, Response 200
            (inr (JDict [("results", JList []); ("error", JStr "quota exceeded")])))
    "Infectious Disease" 5 None
  = ([error_message (JStr "quota exceeded")], inr ()).
Proof.
  split_and!.
  - destruct (error_result_rendering id (λ _, Response 404 (inr JNull))
                "Infectious Disease" 5 None) as (_ & H & _).
    apply H. intros j. discriminate.
  - destruct (error_result_rendering id
                (λ _, Failure (Raised "Connection refused"))
                "Infectious Disease" 5 None) as (_ & H & _).
    apply H. intros j. discriminate.
  - destruct (error_result_rendering id
                (λ _, Response 200
                        (inr (JDict [("results", JList []);
                                     ("error", JStr "quota exceeded")])))
                "Infectious Disease" 5 None) as (_ & _ & _ & H).
    apply (H [("results", JList []); ("error", JStr "quota exceeded")]
             (JStr "quota exceeded")); [reflexivity|vm_compute; eauto|reflexivity].
Defined.

(** ** Display names *)

(** One organisation with a location address and a primary taxonomy. *)
Example render_one_provider :
  render_provider_results
    (JDict [("result_count", JNum 1);
            ("results", JList [JDict [
               ("enumeration_type", JStr "NPI-2");
               ("basic", JDict [("organization_name", JStr "Lakeside Clinic")]);
               ("addresses", JList [
                  JDict [("address_purpose", JStr "MAILING"); ("city", JStr "Tacoma")];
                  JDict [("address_purpose", JStr "LOCATION");
                         ("address_1", JStr "1 Main St"); ("city", JStr "Seattle");
                         ("state", JStr "WA"); ("postal_code", JStr "98101")]]);
               ("taxonomies", JList [
                  JDict [("primary", JBool true); ("desc", JStr "Cardiology")]])]])])
  = ([StWrite [Lit "Found "; Fmt (JNum 1); Lit " providers. Showing top ";
               Fmt (JNum 1); Lit ":"];
      StMarkdown [Lit "<div class='provider-name'>"; Fmt (JStr "Lakeside Clinic");
                  Lit "</div>"];
      StMarkdown [Lit "<div class='provider-address'>"; Fmt (JStr "1 Main St");
                  Lit "<br>"; Fmt (JStr "Seattle"); Lit ", "; Fmt (JStr "WA");
                  Lit " "; Fmt (JStr "98101"); Lit "</div>"];
      StMarkdown [Lit "<div class='provider-taxonomy'>"; Fmt (JStr "Cardiology");
                  Lit "</div>"];
      StMarkdown [Lit "</div>"]], inr ()).
Proof. vm_compute. reflexivity. Qed.

(** A body that carries an "error" entry next to its results reaches the
    error branch. *)
Example render_error_branch :
  render_provider_results
    (JDict [("results", JList []); ("error", JStr "quota exceeded")])
  = ([StError [Lit "Error fetching providers: "; Fmt (JStr "quota exceeded")]],
     inr ()).
Proof. vm_compute. reflexivity. Qed.

Lemma string_app_empty_r (s : string) : s +:+ "" = s.
Proof.
  induction s as [|c s IH]; [done|].
  change (String c (s +:+ "") = String c s). by f_equal.
Qed.

Lemma display_name_individual (d b : list (string * json)) :
  assoc "enumeration_type" d = Some (JStr "NPI-1") →
  assoc "basic" d = Some (JDict b) →
  display_name (JDict d)
  = inr [Fmt (default (JStr "") (assoc "first_name" b)); Lit " ";
         Fmt (default (JStr "") (assoc "last_name" b))].
Proof.
  intros Htype Hbasic. unfold display_name, get, mbind, crash_bind.
  by rewrite Htype, Hbasic.
Qed.

(** C9.  For a provider entry of individual type ("NPI-1") the display name
    is the first name, a space and the last name, each taken from the basic
    data and empty when absent; first name "Jane" and last name "Doe" give
    "Jane Doe".  For an entry of another type whose basic data is absent or
    has no [organization_name], the display name is "Unknown Provider". *)
Theorem display_name_normalised (d b : list (string * json)) :
  (assoc "enumeration_type" d = Some (JStr "NPI-1") →
   assoc "basic" d = Some (JDict b) →
   display_name (JDict d)
   = inr [Fmt (default (JStr "") (assoc "first_name" b)); Lit " ";
          Fmt (default (JStr "") (assoc "last_name" b))] ∧
   (∀ first last,
      assoc "first_name" b = Some (JStr first) →
      assoc "last_name" b = Some (JStr last) →
      ∃ name, display_name (JDict d) = inr name ∧
              flatten name = Some (first +:+ " " +:+ last)) ∧
   (assoc "first_name" b = Some (JStr "Jane") →
    assoc "last_name" b = Some (JStr "Doe") →
    ∃ name, display_name (JDict d) = inr name ∧ flatten name = Some "Jane Doe")) ∧
  (eq_str (default JNull (assoc "enumeration_type" d)) "NPI-1" = false →
   assoc "basic" d = None ∨
     (assoc "basic" d = Some (JDict b) ∧ assoc "organization_name" b = None) →
   display_name (JDict d) = inr [Fmt (JStr "Unknown Provider")] ∧
   flatten [Fmt (JStr "Unknown Provider")] = Some "Unknown Provider").
Proof.
  split.
  - intros Htype Hbasic.
    pose proof (display_name_individual d b Htype Hbasic) as Hname.
    split_and!; [done| |].
    + intros first last Hf Hl. eexists. split; [exact Hname|].
      rewrite Hf, Hl. simpl. by rewrite string_app_empty_r.
    + intros Hf Hl. eexists. split; [exact Hname|]. by rewrite Hf, Hl.
  - intros Htype Hbasic. split; [|done].
    unfold display_name, get, mbind, crash_bind, mret, crash_ret.
    rewrite Htype.
    destruct Hbasic as [->|[-> Horg]]; simpl; [done|]. by rewrite Horg.
Qed.

Lemma display_name_normalised_witness :
  (∃ name,
     display_name (JDict [("enumeration_type", JStr "NPI-1");
                          ("basic", JDict [("first_name", JStr "Jane");
                                           ("last_name", JStr "Doe")])])
     = inr name ∧ flatten name = Some "Jane Doe") ∧
  display_name (JDict [("enumeration_type", JStr "NPI-2");
                       ("basic", JDict [("status", JStr "A")])])
  = inr [Fmt (JStr "Unknown Provider")].
Proof.
  split.
  - destruct (display_name_normalised
                [("enumeration_type", JStr "NPI-1");
                 ("basic", JDict [("first_name", JStr "Jane");
                                  ("last_name", JStr "Doe")])]
                [("first_name", JStr "Jane"); ("last_name", JStr "Doe")])
      as [H _].
    destruct H as (_ & _ & H); [reflexivity|reflexivity|].
    apply H; reflexivity.
  - destruct (display_name_normalised
                [("enumeration_type", JStr "NPI-2");
                 ("basic", JDict [("status", JStr "A")])]
                [("status", JStr "A")]) as [_ H].
    destruct H as [H _]; [reflexivity|right; split; reflexivity|].
    exact H.
Defined.

(** The witness of the amended C2. *)
Lemma one_hot_unknown_appended_witness :
  ∃ extra,
    NoDup extra ∧
    (∀ u, u ∈ extra ↔ u ∈ ["fever"; "zzz"] ∧ u ∉ ["fever"; "cough"]) ∧
    columns (one_hot ["fever"; "zzz"] ["fever"; "cough"])
    = ["fever"; "cough"] ++ extra ∧
    row0 (one_hot ["fever"; "zzz"] ["fever"; "cough"])
    = row0 (one_hot (known ["fever"; "zzz"] ["fever"; "cough"]) ["fever"; "cough"])
        ++ replicate (length extra) 1%Z.
Proof.
  apply (one_hot_unknown_appended ["fever"; "zzz"] ["fever"; "cough"]);
    apply (bool_decide_unpack _); vm_compute; exact I.
Defined.

(** * Further properties of the code *)

(** ** Encoder: order, number of ones *)

Lemma count_ones_app (a b : list Z) :
  count_ones (a ++ b) = count_ones a + count_ones b.
Proof. unfold count_ones. by rewrite filter_app, length_app. Qed.

Lemma count_ones_replicate (n : nat) : count_ones (replicate n 1%Z) = n.
Proof.
  unfold count_ones. induction n as [|n IH]; [done|]. cbn [replicate].
  rewrite filter_cons. case_decide; [|done]. cbn [length]. by rewrite IH.
Qed.

Lemma indicator_ext (S S' : list string) (l : list string) :
  (∀ x, x ∈ S ↔ x ∈ S') → map (indicator S) l = map (indicator S') l.
Proof.
  intros Hsame. apply map_ext. intros c. unfold indicator.
  repeat case_bool_decide; try done; exfalso; naive_solver.
Qed.

(** The row of any selection: the feature columns hold the indicator of the
    selection, the added columns hold 1. *)
Lemma one_hot_row0_split (S all_feats : list string) :
  ∃ extra,
    columns (one_hot S all_feats) = all_feats ++ extra ∧
    NoDup extra ∧ (∀ u, u ∈ extra ↔ u ∈ S ∧ u ∉ all_feats) ∧
    row0 (one_hot S all_feats)
    = map (indicator S) all_feats ++ replicate (length extra) 1%Z.
Proof.
  destruct (ensure_labels_extra S all_feats) as (extra & Heq & Hnd & Hin).
  exists extra. rewrite one_hot_columns, one_hot_row0, Heq, map_app.
  split_and!; try done. f_equal.
  apply indicator_selected. intros u Hu. by apply Hin.
Qed.

(** X1.  The encoding does not depend on the order of the selection: two
    selections with the same symptoms give the same row, and the same frame
    when the symptoms are all features. *)
Theorem one_hot_same_symptoms (S S' all_feats : list string) :
  NoDup all_feats → NoDup S → NoDup S' →
  (∀ x, x ∈ S ↔ x ∈ S') →
  row0 (one_hot S all_feats) = row0 (one_hot S' all_feats) ∧
  (S ⊆ all_feats → one_hot S all_feats = one_hot S' all_feats).
Proof.
  intros _ _ _ Hsame.
  destruct (one_hot_row0_split S all_feats) as (e & Hc & Hnd & Hin & Hr).
  destruct (one_hot_row0_split S' all_feats) as (e' & Hc' & Hnd' & Hin' & Hr').
  assert (Hlen : length e = length e').
  { apply Permutation_length, NoDup_Permutation; [done|done|].
    intros x. rewrite Hin, Hin', Hsame. done. }
  assert (Hrow : row0 (one_hot S all_feats) = row0 (one_hot S' all_feats)).
  { by rewrite Hr, Hr', Hlen, (indicator_ext S S'). }
  split; [done|]. intros Hsub.
  assert (He : e = []).
  { destruct e as [|u e]; [done|]. exfalso.
    destruct (proj1 (Hin u)) as [Hu Hn]; [left|]. by apply Hn, Hsub. }
  assert (He' : e' = []).
  { destruct e'; [done|]. rewrite He in Hlen. simpl in Hlen. lia. }
  rewrite He, app_nil_r in Hc. rewrite He', app_nil_r in Hc'.
  destruct (one_hot S all_feats) as [c r], (one_hot S' all_feats) as [c' r'].
  simpl in *. congruence.
Qed.

Lemma one_hot_same_symptoms_witness :
  one_hot ["rash"; "fever"] ["fever"; "cough"; "rash"]
  = one_hot ["fever"; "rash"] ["fever"; "cough"; "rash"].
Proof.
  assert (Hnd : NoDup ["fever"; "cough"; "rash"])
    by (apply (bool_decide_unpack _); vm_compute; exact I).
  assert (HndS : NoDup ["rash"; "fever"])
    by (apply (bool_decide_unpack _); vm_compute; exact I).
  assert (HndS' : NoDup ["fever"; "rash"])
    by (apply (bool_decide_unpack _); vm_compute; exact I).
  assert (Hsame : ∀ x : string, x ∈ ["rash"; "fever"] ↔ x ∈ ["fever"; "rash"])
    by (intros x; rewrite !elem_of_cons; tauto).
  destruct (one_hot_same_symptoms ["rash"; "fever"] ["fever"; "rash"]
              ["fever"; "cough"; "rash"] Hnd HndS HndS' Hsame) as [_ H].
  apply H. apply (bool_decide_unpack _). vm_compute. exact I.
Defined.

(** X2.  Every selection, with or without identifiers outside the feature
    list, is encoded as a row of zeros and ones that has one cell per column
    and exactly one 1 per selected symptom; the empty selection gives the
    all-zero row. *)
Theorem one_hot_ones (S all_feats : list string) :
  NoDup all_feats → NoDup S →
  let X := one_hot S all_feats in
  length (row0 X) = length (columns X) ∧
  Forall (λ x, x = 0%Z ∨ x = 1%Z) (row0 X) ∧
  count_ones (row0 X) = length S ∧
  (S = [] → row0 X = replicate (length all_feats) 0%Z).
Proof.
  intros Hnd HndS X. subst X.
  destruct (one_hot_row0_split S all_feats) as (e & Hc & Hnde & Hin & Hr).
  split_and!.
  - by rewrite Hr, Hc, !length_app, length_map, length_replicate.
  - rewrite Hr. apply Forall_app. split.
    + apply Forall_forall. intros x (c & -> & _)%list_elem_of_fmap.
      unfold indicator. case_bool_decide; auto.
    + apply Forall_forall. intros x [-> _]%elem_of_replicate. auto.
  - rewrite Hr, count_ones_app, count_ones_indicator, count_ones_replicate.
    rewrite <- length_app. apply Permutation_length, NoDup_Permutation.
    + apply NoDup_app. split_and!; [by apply NoDup_filter| |done].
      intros x [_ Hx]%list_elem_of_filter [_ Hn]%Hin. by apply Hn.
    + done.
    + intros x. rewrite elem_of_app, list_elem_of_filter, Hin.
      destruct (decide (x ∈ all_feats)); tauto.
  - intros ->. rewrite one_hot_row0. simpl. clear.
    induction all_feats as [|f l IH]; [done|]. simpl. by f_equal.
Qed.

Lemma one_hot_ones_witness :
  count_ones (row0 (one_hot ["fever"; "zzz"] ["fever"; "cough"])) = 2.
Proof.
  assert (Hnd : NoDup ["fever"; "cough"])
    by (apply (bool_decide_unpack _); vm_compute; exact I).
  assert (HndS : NoDup ["fever"; "zzz"])
    by (apply (bool_decide_unpack _); vm_compute; exact I).
  destruct (one_hot_ones ["fever"; "zzz"] ["fever"; "cough"] Hnd HndS)
    as (_ & _ & H & _).
  exact H.
Defined.

(** ** Ranking: what the top three are, and what the threshold cuts *)

Lemma top3_NoDup (p : list Q) : NoDup (top3 p).
Proof.
  eapply (StronglySorted_irrefl_NoDup (flip (ranks_below p)));
    [intros x; apply ranks_below_irrefl|apply top3_sorted].
Qed.

(** An index of the distribution that is not among the top three ranks below
    each of them. *)
Lemma top3_above_rest (p : list Q) (i j : nat) :
  j ∈ top3 p → i < length p → i ∉ top3 p → ranks_below p i j.
Proof.
  unfold top3, last_n. intros Hj Hi Hni.
  set (k := length (argsort p) - 3) in *.
  assert (Hj' : j ∈ drop k (argsort p)).
  { by apply list_elem_of_In, in_rev, list_elem_of_In. }
  assert (Hi' : i ∈ take k (argsort p)).
  { apply argsort_elem in Hi. rewrite <- (take_drop k (argsort p)) in Hi.
    apply elem_of_app in Hi as [Hi|Hi]; [done|]. exfalso. apply Hni.
    by apply list_elem_of_In, in_rev, list_elem_of_In in Hi. }
  pose proof (argsort_sorted p) as Hs.
  rewrite <- (take_drop k (argsort p)) in Hs.
  by eapply StronglySorted_app_1_elem_of.
Qed.

(** X3.  The stored [top_idx] holds the three most probable classes (all of
    them when there are fewer): distinct indices of the distribution, in
    descending order of probability, and no class outside the list is more
    probable than a class inside. *)
Theorem top3_most_probable (p : list Q) :
  length (top3 p) = length p `min` 3 ∧
  NoDup (top3 p) ∧
  (∀ j, j ∈ top3 p → j < length p) ∧
  StronglySorted (λ i j, (prob_at p j <= prob_at p i)%Q) (top3 p) ∧
  (∀ i j, j ∈ top3 p → i < length p → i ∉ top3 p →
     (prob_at p i <= prob_at p j)%Q).
Proof.
  split_and!.
  - apply top3_length.
  - apply top3_NoDup.
  - apply top3_elem.
  - eapply StronglySorted_weaken; [|apply top3_sorted].
    intros i j Hij. by apply ranks_below_le.
  - intros i j Hj Hi Hni. by eapply ranks_below_le, top3_above_rest.
Qed.

Lemma filter_sorted_prefix {A} (R : relation A) (P : A → Prop)
    `{!∀ x, Decision (P x)} (l : list A) :
  (∀ x y, R x y → P y → P x) → StronglySorted R l →
  ∃ k, filter P l = take k l.
Proof.
  intros Hdown. induction 1 as [|x l Hl [k IH] Hx].
  - by exists 0.
  - rewrite filter_cons. case_decide as Hpx.
    + exists (S k). simpl. by rewrite IH.
    + exists 0. simpl. rewrite Forall_forall in Hx.
      clear IH. induction l as [|y l IHl]; [done|].
      rewrite filter_cons. case_decide as Hpy.
      * exfalso. apply Hpx. apply (Hdown x y); [|done]. apply Hx. by left.
      * apply IHl; [by inversion Hl|]. intros z Hz. apply Hx. by right.
Qed.

(** X4.  The threshold only cuts the end of the list: the entries shown are
    the first [k] of the stored top three, for some [k].  Once a class is
    skipped for being below 0.05, every class after it is skipped too. *)
Theorem other_possibilities_prefix (p : list Q) :
  ∃ k, other_possibilities {| probs := p; top_idx := top3 p |}
       = map (λ i, (i, prob_at p i)) (take k (top3 p)).
Proof.
  unfold other_possibilities; simpl.
  destruct (filter_sorted_prefix (flip (ranks_below p))
              (λ i, Qltb (prob_at p i) threshold = false) (top3 p))
    as [k Hk].
  - intros i j Hij%ranks_below_le Hj%Qltb_ge. apply Qltb_ge.
    by eapply Qle_trans.
  - apply top3_sorted.
  - exists k. by rewrite Hk.
Qed.

Lemma Qsum_below (p : list Q) (c : Q) :
  Forall (λ q, (q < c)%Q) p → p ≠ [] →
  (Qsum p < inject_Z (Z.of_nat (length p)) * c)%Q.
Proof.
  induction p as [|q p IH]; [done|]. intros [Hq Hp]%Forall_cons _.
  destruct p as [|q' p].
  - change (Qsum [q]) with (q + 0)%Q.
    change (inject_Z (Z.of_nat (length [q]))) with 1%Q. lra.
  - specialize (IH Hp ltac:(done)).
    change (Qsum (q :: q' :: p)) with (q + Qsum (q' :: p))%Q.
    change (length (q :: q' :: p)) with (S (length (q' :: p))).
    rewrite Nat2Z.inj_succ, <- Z.add_1_r, inject_Z_plus.
    change (inject_Z 1) with 1%Q. lra.
Qed.

Lemma Qsum_below_threshold (p : list Q) :
  Forall (λ q, (q < threshold)%Q) p → length p ≤ 20 → (Qsum p < 1)%Q.
Proof.
  intros Hall Hlen. destruct (decide (p = [])) as [->|Hne]; [done|].
  pose proof (Qsum_below p threshold Hall Hne) as Hlt.
  assert (Hn : (inject_Z (Z.of_nat (length p)) <= inject_Z 20)%Q).
  { rewrite <- Zle_Qle. lia. }
  unfold threshold in *. change (inject_Z 20) with 20%Q in Hn. lra.
Qed.

(** X5.  A distribution over at most 20 classes whose probabilities add up
    to 1 (or more) always has something to show: the list starts with a most
    probable class.  (0.05 is 1/20: some class reaches the threshold.) *)
Theorem other_possibilities_nonempty (p : list Q) :
  (1 <= Qsum p)%Q → length p ≤ 20 →
  ∃ i rest,
    other_possibilities {| probs := p; top_idx := top3 p |}
    = (i, prob_at p i) :: rest ∧
    ∀ j, j < length p → (prob_at p j <= prob_at p i)%Q.
Proof.
  intros Hsum Hlen.
  destruct (top3 p) as [|i r] eqn:Htop.
  { exfalso. pose proof (top3_length p) as Hl. rewrite Htop in Hl.
    destruct p; [by vm_compute in Hsum|simpl in Hl; lia]. }
  assert (Hmax : ∀ j, j < length p → (prob_at p j <= prob_at p i)%Q).
  { intros j Hj. destruct (decide (j ∈ top3 p)) as [Hin|Hout].
    - rewrite Htop in Hin. apply elem_of_cons in Hin as [->|Hin];
        [apply Qle_refl|].
      pose proof (top3_sorted p) as Hs. rewrite Htop in Hs.
      apply StronglySorted_cons in Hs as [Hhd _].
      rewrite Forall_forall in Hhd. by apply ranks_below_le, Hhd.
    - apply ranks_below_le, top3_above_rest; [|done|done].
      rewrite Htop. by left. }
  exists i. unfold other_possibilities; simpl. rewrite filter_cons.
  case_decide as Hshow; [by eexists|]. exfalso.
  apply not_false_is_true, Qltb_lt in Hshow.
  apply (Qlt_not_le (Qsum p) 1); [|done]. apply Qsum_below_threshold; [|done].
  apply Forall_lookup. intros j q Hq.
  assert (Hj : j < length p) by (by eapply lookup_lt_Some).
  specialize (Hmax j Hj). unfold prob_at in Hmax at 1.
  rewrite nth_lookup, Hq in Hmax. simpl in Hmax.
  by eapply Qle_lt_trans.
Qed.

Lemma other_possibilities_nonempty_witness :
  ∃ i rest,
    other_possibilities
      {| probs := [2 # 10; 7 # 10; 1 # 10]%Q;
         top_idx := top3 [2 # 10; 7 # 10; 1 # 10]%Q |}
    = (i, prob_at [2 # 10; 7 # 10; 1 # 10]%Q i) :: rest.
Proof.
  destruct (other_possibilities_nonempty [2 # 10; 7 # 10; 1 # 10]%Q)
    as (i & rest & H & _).
  - vm_compute. discriminate.
  - simpl. lia.
  - by exists i, rest.
Defined.

(** With more than 20 classes nothing may reach the threshold. *)
Example other_possibilities_empty :
  let p := replicate 25 (1 # 25)%Q in
  (Qsum p == 1)%Q ∧
  other_possibilities {| probs := p; top_idx := top3 p |} = [].
Proof. split; vm_compute; reflexivity. Qed.

(** ** Session states that can occur *)

Lemma resolve_specialty_row (m : gmap string SpecialtyInfo) (y spec tax : string) :
  resolve_specialty m y = Some (spec, tax) →
  ∃ k info, m !! k = Some info ∧ spec = specialty_of info ∧
            tax = Taxonomy_Code info.
Proof.
  unfold resolve_specialty, lookup_info, taxonomy_of.
  destruct (m !! lower y) as [info|] eqn:Hlow.
  - intros [= <- <-]. exists (lower y), info. by rewrite str_or_empty_r.
  - destruct (m !! y) as [info|] eqn:Hy; [|done].
    intros [= <- <-]. exists y, info. by rewrite str_or_empty_r.
Qed.

(** What one run of the handler can do to each field. *)
Lemma on_predict_fields model all_symptoms m predict_btn selected st :
  let st' := (on_predict model all_symptoms m predict_btn selected st).1 in
  (prediction_probs st' = prediction_probs st ∨
   ∃ p, prediction_probs st' = Some {| probs := p; top_idx := top3 p |}) ∧
  ((recommended_specialty st' = recommended_specialty st ∧
    taxonomy_code st' = taxonomy_code st) ∨
   ∃ k info, m !! k = Some info ∧
     recommended_specialty st' = Some (specialty_of info) ∧
     taxonomy_code st' = Some (Taxonomy_Code info)) ∧
  (st' = st ∨ (show_providers st' = false ∧ is_Some (last_prediction st'))) ∧
  (predict_proba model = None → prediction_probs st' = prediction_probs st).
Proof.
  unfold on_predict.
  destruct (predict_btn && bool_decide (selected ≠ [])); [|simpl; tauto].
  run_body.
  destruct (predict model _) as [e0|y]; [simpl; tauto|].
  destruct (predict_proba model) as [proba|].
  - destruct (proba _) as [e1|p]; [simpl; split_and!; eauto; done|].
    destruct y as [y|n]; [|simpl; split_and!; eauto; done].
    destruct (resolve_specialty m y) as [[spec tax]|] eqn:Hres;
      simpl; split_and!; eauto; try done.
    right. apply resolve_specialty_row in Hres as (k & info & ? & -> & ->).
    eauto.
  - destruct y as [y|n]; [|simpl; split_and!; eauto].
    destruct (resolve_specialty m y) as [[spec tax]|] eqn:Hres;
      simpl; split_and!; eauto.
    right. apply resolve_specialty_row in Hres as (k & info & ? & -> & ->).
    eauto.
Qed.

(** The facts that hold of every session state that can occur. *)
Lemma reachable_facts model all_symptoms m st :
  reachable model all_symptoms m st →
  (∀ t, prediction_probs st = Some t →
        top_idx t = top3 (probs t) ∧ is_Some (last_prediction st)) ∧
  ((recommended_specialty st = None ∧ taxonomy_code st = None) ∨
   ∃ k info, m !! k = Some info ∧
     recommended_specialty st = Some (specialty_of info) ∧
     taxonomy_code st = Some (Taxonomy_Code info)) ∧
  (is_Some (recommended_specialty st) → is_Some (last_prediction st)) ∧
  (show_providers st = true → field_truthy (recommended_specialty st) = true) ∧
  (predict_proba model = None → prediction_probs st = None).
Proof.
  induction 1 as [|st btn sel Hst IH|st btn Hst IH].
  - simpl. split_and!; first [done|by left|by intros [? ?]].
  - destruct IH as (Htab & Hpair & Hspec & Hshow & Hplain).
    pose proof (on_predict_fields model all_symptoms m btn sel st) as Hf.
    simpl in Hf. destruct Hf as (Hp & Hs & Hw & Hn).
    set (st' := (on_predict model all_symptoms m btn sel st).1) in *.
    split_and!.
    + intros t Ht. destruct Hw as [->|[_ Hlast]]; [by apply Htab|].
      split; [|done]. destruct Hp as [Hp|[p Hp]].
      * rewrite Hp in Ht. by apply Htab.
      * rewrite Hp in Ht. by injection Ht as <-.
    + destruct Hs as [[-> ->]|Hs]; [done|by right].
    + intros Hsome. destruct Hw as [->|[_ Hlast]]; [by apply Hspec|done].
    + intros Htrue. destruct Hw as [->|[Hfalse _]]; [by apply Hshow|].
      by rewrite Hfalse in Htrue.
    + intros Hnone. rewrite (Hn Hnone). by apply Hplain.
  - destruct IH as (Htab & Hpair & Hspec & Hshow & Hplain).
    assert (Hcases : on_find_providers btn st = st ∨
              (field_truthy (recommended_specialty st) = true ∧
               on_find_providers btn st
               = mkSession (last_prediction st) (recommended_specialty st)
                   (taxonomy_code st) (prediction_probs st) true)).
    { unfold on_find_providers.
      destruct (field_truthy (recommended_specialty st)); [|by left].
      destruct btn; [by right|by left]. }
    destruct Hcases as [->|[Htr ->]]; [by split_and!|].
    simpl. by split_and!.
Qed.

Lemma demo_state_reachable :
  reachable demo_model ["fever"; "cough"] demo_mapping demo_state.
Proof. apply reach_predict, reach_initial. Qed.

Lemma demo_state_providers_reachable :
  reachable demo_model ["fever"; "cough"] demo_mapping demo_state_providers.
Proof. apply reach_find, demo_state_reachable. Qed.

(** X6.  In every session state that can occur, a stored probability table
    is consistent: its [top_idx] holds three distinct indices of its [probs]
    (all of them when there are fewer), so the display loop never indexes
    [probs] past its end; no index is more probable than one before it, and
    no class outside the list is more probable than a class inside.  A table
    is only there once a prediction has been stored. *)
Theorem reachable_table_consistent model all_symptoms m st t :
  reachable model all_symptoms m st →
  prediction_probs st = Some t →
  length (top_idx t) = length (probs t) `min` 3 ∧
  NoDup (top_idx t) ∧
  (∀ i, i ∈ top_idx t → is_Some (probs t !! i)) ∧
  StronglySorted (λ i j, (prob_at (probs t) j <= prob_at (probs t) i)%Q)
    (top_idx t) ∧
  (∀ i j, j ∈ top_idx t → i < length (probs t) → i ∉ top_idx t →
     (prob_at (probs t) i <= prob_at (probs t) j)%Q) ∧
  is_Some (last_prediction st).
Proof.
  intros Hst Ht.
  destruct (reachable_facts _ _ _ _ Hst) as (Htab & _).
  destruct (Htab t Ht) as [Htop Hlast]. rewrite Htop.
  split_and!; [apply top3_length|apply top3_NoDup| | | |done].
  - intros i Hi%top3_elem. by apply lookup_lt_is_Some.
  - eapply StronglySorted_weaken; [|apply top3_sorted].
    intros i j Hij. by apply ranks_below_le.
  - intros i j Hj Hi Hni. by eapply ranks_below_le, top3_above_rest.
Qed.

Lemma reachable_table_consistent_witness :
  ∃ t, prediction_probs demo_state = Some t ∧
       length (top_idx t) = length (probs t) `min` 3 ∧ NoDup (top_idx t).
Proof.
  eexists. split; [reflexivity|].
  destruct (reachable_table_consistent demo_model ["fever"; "cough"]
              demo_mapping demo_state _
              (reach_predict _ _ _ _ true ["fever"] (reach_initial _ _ _))
              eq_refl) as (Hlen & Hnd & _).
  split; [exact Hlen|exact Hnd].
Defined.

(** X7.  In every session state that can occur, the recommended specialty
    and the taxonomy code are either both unset or come from one and the same
    row of the mapping. *)
Theorem reachable_specialty_paired model all_symptoms m st :
  reachable model all_symptoms m st →
  (recommended_specialty st = None ∧ taxonomy_code st = None) ∨
  ∃ k info, m !! k = Some info ∧
    recommended_specialty st = Some (specialty_of info) ∧
    taxonomy_code st = Some (Taxonomy_Code info).
Proof. intros Hst. apply (reachable_facts _ _ _ _ Hst). Qed.

Lemma reachable_specialty_paired_witness :
  (recommended_specialty demo_state = None ∧ taxonomy_code demo_state = None) ∨
  ∃ k info, demo_mapping !! k = Some info ∧
    recommended_specialty demo_state = Some (specialty_of info) ∧
    taxonomy_code demo_state = Some (Taxonomy_Code info).
Proof.
  apply (reachable_specialty_paired demo_model ["fever"; "cough"]).
  apply reach_predict, reach_initial.
Defined.

(** X8.  In every session state that can occur, the provider panel is open
    ([show_providers]) only while there is a non-empty recommended specialty,
    and a specialty is only there once a prediction has been stored.  So the
    provider section is shown exactly when [show_providers] is set. *)
Theorem reachable_providers_need_specialty model all_symptoms m st :
  reachable model all_symptoms m st →
  (show_providers st = true → field_truthy (recommended_specialty st) = true) ∧
  (is_Some (recommended_specialty st) → is_Some (last_prediction st)) ∧
  show_providers st && field_truthy (recommended_specialty st)
  = show_providers st.
Proof.
  intros Hst.
  destruct (reachable_facts _ _ _ _ Hst) as (_ & _ & Hspec & Hshow & _).
  split_and!; [done|done|].
  destruct (show_providers st); [|done]. simpl. by apply Hshow.
Qed.

Lemma reachable_providers_need_specialty_witness :
  show_providers demo_state_providers = true ∧
  field_truthy (recommended_specialty demo_state_providers) = true.
Proof.
  split; [reflexivity|].
  destruct (reachable_providers_need_specialty demo_model ["fever"; "cough"]
              demo_mapping demo_state_providers) as (H & _).
  - apply reach_find, reach_predict, reach_initial.
  - apply H. reflexivity.
Defined.

(** ** Loader *)

Lemma fallback_name_inj : Inj (=) (=) (λ i : nat, "symptom_" +:+ pretty i).
Proof. intros i j Hij. by apply (inj (String.app "symptom_")), (inj pretty) in Hij. Qed.

Lemma fallback_features_facts (k : nat) :
  length (fallback_features k) = k ∧
  NoDup (fallback_features k) ∧
  ∀ i, i < k → fallback_features k !! i = Some ("symptom_" +:+ pretty i).
Proof.
  unfold fallback_features. split_and!.
  - by rewrite length_map, length_seq.
  - apply (@NoDup_fmap_2 _ _ _ fallback_name_inj), NoDup_seq.
  - intros i Hi.
    change (map ?f ?l) with (f <$> l).
    by rewrite list_lookup_fmap, lookup_seq_lt.
Qed.

(** X9.  Without a feature file the loader names the features "symptom_0",
    "symptom_1", ... up to the input width of the model: as many as the
    width, all distinct, the i-th being "symptom_i"; it fails when the width
    cannot be read.  With a feature file the width is not consulted. *)
Theorem loader_fallback_features model coef_width feature_csv mapping_tsv a :
  load_model_features_mapping (inr model) coef_width feature_csv mapping_tsv
  = inr a →
  match feature_csv with
  | Some features => loaded_features a = features
  | None =>
      ∃ k, coef_width = inr k ∧
        length (loaded_features a) = k ∧
        NoDup (loaded_features a) ∧
        ∀ i, i < k → loaded_features a !! i = Some ("symptom_" +:+ pretty i)
  end.
Proof.
  unfold load_model_features_mapping.
  destruct feature_csv as [features|].
  - destruct mapping_tsv as [rows|]; [|by intros [= <-]].
    destruct (to_dict_index rows); [done|by intros [= <-]].
  - destruct coef_width as [e|k]; [done|]. intros Hload. exists k.
    assert (Hf : loaded_features a = fallback_features k).
    { destruct mapping_tsv as [rows|]; [|by injection Hload as <-].
      destruct (to_dict_index rows); [done|by injection Hload as <-]. }
    rewrite Hf. split; [done|]. apply fallback_features_facts.
Qed.

Lemma loader_fallback_features_witness :
  ∃ a, load_model_features_mapping (inr demo_model) (inr 3) None None = inr a ∧
       loaded_features a = ["symptom_0"; "symptom_1"; "symptom_2"] ∧
       NoDup (loaded_features a).
Proof.
  eexists. split; [reflexivity|]. split; [reflexivity|].
  destruct (loader_fallback_features demo_model (inr 3) None None _ eq_refl)
    as (k & _ & _ & H & _).
  exact H.
Defined.

(** X10.  With a mapping file whose disease names are distinct, the loader
    shows no warning and the mapping holds exactly the rows of the file,
    each under its disease name.  A repeated disease name makes the loader
    fail. *)
Theorem loader_mapping_rows model coef_width features rows :
  (NoDup rows.*1 →
   ∃ a, load_model_features_mapping (inr model) coef_width (Some features)
          (Some rows) = inr a ∧
        loader_events a = [] ∧
        ∀ d info, loaded_mapping a !! d = Some info ↔ (d, info) ∈ rows) ∧
  (¬ NoDup rows.*1 →
   ∃ e, load_model_features_mapping (inr model) coef_width (Some features)
          (Some rows) = inl e).
Proof.
  unfold load_model_features_mapping, to_dict_index. split; intros Hnd.
  - rewrite bool_decide_true by done. eexists. split; [done|]. split; [done|].
    intros d info. simpl. symmetry. by apply elem_of_list_to_map.
  - rewrite bool_decide_false by done. by eexists.
Qed.

Lemma loader_mapping_rows_witness :
  ∃ a, load_model_features_mapping (inr demo_model) (inr 2)
         (Some ["fever"; "cough"])
         (Some [("flu", mkInfo "Infectious Disease" "Internal Medicine" "207RI0200X");
                ("cold", mkInfo "" "Family Medicine" "207Q00000X")]) = inr a ∧
       loaded_mapping a !! "cold" = Some (mkInfo "" "Family Medicine" "207Q00000X").
Proof.
  destruct (loader_mapping_rows demo_model (inr 2) ["fever"; "cough"]
              [("flu", mkInfo "Infectious Disease" "Internal Medicine" "207RI0200X");
               ("cold", mkInfo "" "Family Medicine" "207Q00000X")])
    as [H _].
  destruct H as (a & Ha & _ & Hrows).
  - apply (bool_decide_unpack _). vm_compute. exact I.
  - exists a. split; [exact Ha|]. apply Hrows. set_solver.
Defined.

(** X11.  Without a mapping file the loader warns and returns the empty
    mapping, and then no session state that can occur has a recommended
    specialty or a taxonomy code, and the provider panel is never open. *)
Theorem no_mapping_no_specialty joblib_load coef_width feature_csv a st :
  load_model_features_mapping joblib_load coef_width feature_csv None = inr a →
  loader_events a
  = [StWarning [Lit "Specialty mapping file not found – specialties will be omitted."]] ∧
  loaded_mapping a = ∅ ∧
  (reachable (loaded_model a) (loaded_features a) (loaded_mapping a) st →
   recommended_specialty st = None ∧ taxonomy_code st = None ∧
   show_providers st = false).
Proof.
  unfold load_model_features_mapping. intros Hload.
  assert (Ha : loader_events a
               = [StWarning [Lit "Specialty mapping file not found – specialties will be omitted."]]
               ∧ loaded_mapping a = ∅).
  { destruct joblib_load as [e|model]; [done|].
    destruct feature_csv as [features|]; [by injection Hload as <-|].
    destruct coef_width as [e|k]; [done|]. by injection Hload as <-. }
  destruct Ha as [Hev Hm]. split_and!; [done|done|].
  rewrite Hm. intros Hst.
  destruct (reachable_facts _ _ _ _ Hst) as (_ & Hpair & _ & Hshow & _).
  destruct Hpair as [[Hrs Htc]|(k & info & Hk & _)];
    [|by rewrite lookup_empty in Hk].
  split_and!; [done|done|].
  destruct (show_providers st); [|done].
  specialize (Hshow eq_refl). by rewrite Hrs in Hshow.
Qed.

Lemma no_mapping_no_specialty_witness :
  ∃ a, load_model_features_mapping (inr demo_model) (inr 2) None None = inr a ∧
    recommended_specialty
      (on_predict (loaded_model a) (loaded_features a) (loaded_mapping a) true
         ["symptom_0"] initial_session).1 = None.
Proof.
  eexists. split; [reflexivity|].
  destruct (no_mapping_no_specialty (inr demo_model) (inr 2) None _
              (on_predict demo_model (fallback_features 2) ∅ true
                 ["symptom_0"] initial_session).1 eq_refl) as (_ & _ & H).
  destruct H as (H & _); [apply reach_predict, reach_initial|exact H].
Defined.

(** ** Specialty resolution and letter case *)

Lemma lower_ascii_idemp (c : ascii) : lower_ascii (lower_ascii c) = lower_ascii c.
Proof. by destruct c as [[] [] [] [] [] [] [] []]. Qed.

Lemma lower_idemp (s : string) : lower (lower s) = lower s.
Proof.
  induction s as [|c s IH]; [done|]. simpl. by rewrite lower_ascii_idemp, IH.
Qed.

(** X12.  When no disease name of the mapping has an upper-case ASCII
    letter, the resolution of a label of ASCII characters does not depend on
    its letter case: two such labels with the same lowercase form resolve
    alike. *)
Theorem resolve_case_insensitive (m : gmap string SpecialtyInfo) (y y' : string) :
  is_ascii y = true → is_ascii y' = true →
  (∀ k, is_Some (m !! k) → lower k = k) →
  lower y = lower y' →
  resolve_specialty m y = resolve_specialty m y'.
Proof.
  intros _ _ Hkeys Hsame.
  assert (Hlow : ∀ z, resolve_specialty m z
                      = match m !! lower z with
                        | Some info => Some (specialty_of info, taxonomy_of info)
                        | None => None
                        end).
  { intros z. unfold resolve_specialty, lookup_info.
    destruct (m !! lower z) as [info|] eqn:Hz; [done|].
    destruct (m !! z) as [info|] eqn:Hz'; [|done].
    rewrite <- (Hkeys z) in Hz' by eauto. congruence. }
  by rewrite !Hlow, Hsame.
Qed.

Lemma resolve_case_insensitive_witness :
  resolve_specialty demo_mapping "FLU" = resolve_specialty demo_mapping "Flu".
Proof.
  apply resolve_case_insensitive; [reflexivity|reflexivity| |reflexivity].
  intros k [info Hk]. unfold demo_mapping in Hk.
  apply lookup_singleton_Some in Hk as [<- _]. reflexivity.
Defined.

(** ** The query URL *)

Lemma string_app_assoc (a b c : string) : (a +:+ b) +:+ c = a +:+ b +:+ c.
Proof.
  induction a as [|x a IH]; [done|].
  change (String x ((a +:+ b) +:+ c) = String x (a +:+ b +:+ c)). by f_equal.
Qed.

Lemma concat_amp_cons (a b : string) (l : list string) :
  String.concat "&" (a :: b :: l) = a +:+ "&" +:+ String.concat "&" (b :: l).
Proof. done. Qed.

Lemma concat_amp_app (a : string) (l l' : list string) :
  String.concat "&" (a :: l ++ l')
  = String.concat "&" (a :: l) +:+ foldr (λ s acc, "&" +:+ s +:+ acc) "" l'.
Proof.
  revert a. induction l as [|b l IH]; intros a.
  - simpl app. revert a. induction l' as [|b l' IH']; intros a.
    + by rewrite string_app_empty_r.
    + rewrite concat_amp_cons, IH'. done.
  - change ((b :: l) ++ l') with (b :: l ++ l').
    rewrite !concat_amp_cons, IH, !string_app_assoc. done.
Qed.

Lemma dict_set_fresh {V} (k : string) (v : V) (d : list (string * V)) :
  k ∉ d.*1 → dict_set k v d = d ++ [(k, v)].
Proof.
  induction d as [|[k' v'] d IH]; [done|]. simpl. intros Hk.
  apply not_elem_of_cons in Hk as [Hne Hk].
  rewrite bool_decide_false by done. by rewrite IH.
Qed.

Lemma add_location_fresh (fields params : list (string * string)) :
  NoDup fields.*1 → (∀ k, k ∈ fields.*1 → k ∉ params.*1) →
  add_location (Some fields) params
  = params ++ filter (λ kv, kv.2 ≠ "") fields.
Proof.
  intros Hnd Hfresh.
  assert (Hfold : foldl (λ ps kv, if bool_decide (kv.2 = "") then ps
                                  else dict_set kv.1 kv.2 ps) params fields
                  = params ++ filter (λ kv, kv.2 ≠ "") fields).
  { revert params Hfresh.
    induction fields as [|[k v] fields IH]; intros params Hfresh.
    - by rewrite app_nil_r.
    - apply NoDup_cons in Hnd as [Hk Hnd]. simpl. rewrite filter_cons. simpl.
      case_bool_decide as Hv; case_decide; try done.
      + apply IH; [done|]. intros k' Hk'. apply Hfresh. by right.
      + rewrite dict_set_fresh by (apply Hfresh; by left).
        rewrite IH; [by rewrite <- app_assoc|done|].
        intros k' Hk'. rewrite fmap_app, not_elem_of_app. split.
        * apply Hfresh. by right.
        * simpl. intros ->%list_elem_of_singleton. done. }
  destruct fields; [by rewrite app_nil_r|done].
Qed.

(** X13.  The query always starts with the four fixed parameters, the
    specialty quoted and the limit in decimal.  Location fields with names
    of their own (as the page's city, state and postal_code) follow in their
    order, as they are (not quoted); the empty ones are left out, so a
    location without a non-empty field gives the same URL as no location. *)
Theorem full_url_location (quote : string → string) (specialty : string)
    (limit : Z) (fields : list (string * string)) :
  NoDup fields.*1 →
  (∀ k, k ∈ fields.*1 →
        k ∉ ["taxonomy_description"; "limit"; "version"; "pretty"]) →
  full_url quote specialty limit None
  = base_url +:+ "?taxonomy_description=" +:+ quote specialty
      +:+ "&limit=" +:+ pretty limit +:+ "&version=2.1&pretty=" ∧
  full_url quote specialty limit (Some fields)
  = full_url quote specialty limit None
      +:+ query_tail (filter (λ kv, kv.2 ≠ "") fields) ∧
  (Forall (λ kv, kv.2 = "") fields →
   full_url quote specialty limit (Some fields)
   = full_url quote specialty limit None).
Proof.
  intros Hnd Hfresh.
  assert (Htail : full_url quote specialty limit (Some fields)
                  = full_url quote specialty limit None
                      +:+ query_tail (filter (λ kv, kv.2 ≠ "") fields)).
  { unfold full_url. rewrite add_location_fresh by done.
    simpl add_location. rewrite map_app. cbn [map].
    rewrite <- app_comm_cons, concat_amp_app, <- !string_app_assoc. f_equal.
    unfold query_tail, query_pair.
    induction (filter _ fields) as [|kv l IH]; [done|]. simpl.
    rewrite IH. by rewrite !string_app_assoc. }
  split_and!; [|done|].
  - unfold full_url. simpl add_location. cbn [map].
    rewrite !concat_amp_cons. simpl. by rewrite !string_app_assoc.
  - intros Hempty. rewrite Htail.
    replace (filter (λ kv, kv.2 ≠ "") fields) with (@nil (string * string)).
    + apply string_app_empty_r.
    + symmetry. clear -Hempty. induction Hempty as [|kv l Hkv _ IH]; [done|].
      rewrite filter_cons. by case_decide.
Qed.

Lemma full_url_location_witness :
  full_url id "Cardiology" 5
    (Some [("city", "Seattle"); ("state", ""); ("postal_code", "98101")])
  = full_url id "Cardiology" 5 None +:+ "&city=Seattle&postal_code=98101".
Proof.
  destruct (full_url_location id "Cardiology" 5
              [("city", "Seattle"); ("state", ""); ("postal_code", "98101")])
    as (_ & H & _).
  - apply (bool_decide_unpack _). vm_compute. exact I.
  - intros k Hk. simpl in Hk. rewrite !elem_of_cons, elem_of_nil in Hk.
    destruct Hk as [->|[->|[->|[]]]];
      apply (bool_decide_unpack _); vm_compute; exact I.
  - exact H.
Defined.

(** ** Rendering of the provider list *)

Lemma R_bind_crash {A B} (c : crash) (f : A → R B) :
  (lift (inl c) ≫= f) = ([], inl c).
Proof. done. Qed.

Lemma R_bind_emit {B} (e : ui_event) (f : unit → R B) :
  (emit e ≫= f) = (e :: (f ()).1, (f ()).2).
Proof. unfold mbind, R_bind, emit. by destruct (f ()). Qed.

Lemma R_bind_done {A B} (ev : list ui_event) (a : A) (f : A → R B) :
  ((ev, inr a) ≫= f) = (ev ++ (f a).1, (f a).2).
Proof. unfold mbind, R_bind. by destruct (f a). Qed.

Lemma find_first_result (test : json → crash + bool) (items : list json) (r : json) :
  (∀ x b, test x = inr b → is_dict x = true) →
  find_first test items = inr r → r = JNull ∨ is_dict r = true.
Proof.
  intros Htest. induction items as [|x items IH]; simpl.
  - intros [= <-]. by left.
  - destruct (test x) as [c|b] eqn:Hx; [done|]. simpl.
    destruct b; [|done]. intros [= <-]. right. by eapply Htest.
Qed.

Lemma find_first_dicts (test : json → crash + bool) (items : list json) :
  (∀ x, is_dict x = true → ∃ b, test x = inr b) →
  forallb is_dict items = true → ∃ r, find_first test items = inr r.
Proof.
  intros Htest. induction items as [|x items IH]; simpl; [by eexists|].
  intros [Hx Hitems]%andb_true_iff.
  destruct (Htest x Hx) as [b ->]. simpl. destruct b; [by eexists|auto].
Qed.

Lemma get_needs_dict (v : json) (k : string) (dflt r : json) :
  get v k dflt = inr r → is_dict v = true.
Proof. by destruct v. Qed.

Lemma location_address_shape (provider r : json) :
  location_address_of provider = inr r → r = JNull ∨ is_dict r = true.
Proof.
  unfold location_address_of.
  destruct (get provider "addresses" (JList [])) as [c|addresses]; [done|].
  simpl. destruct (py_iter addresses) as [c|items]; [done|]. simpl.
  apply find_first_result. intros x b.
  destruct (get x "address_purpose" JNull) eqn:Hx; [done|].
  intros _. by eapply get_needs_dict.
Qed.

Lemma primary_taxonomy_shape (provider r : json) :
  primary_taxonomy_of provider = inr r → r = JNull ∨ is_dict r = true.
Proof.
  unfold primary_taxonomy_of.
  destruct (get provider "taxonomies" (JList [])) as [c|taxonomies]; [done|].
  simpl. destruct (py_iter taxonomies) as [c|items]; [done|]. simpl.
  apply find_first_result. intros x b.
  destruct (get x "primary" JNull) eqn:Hx; [done|].
  intros _. by eapply get_needs_dict.
Qed.

Ltac no_events := exists []; split_and!; [done|simpl; lia|constructor].

Lemma render_address_outcome (la : json) :
  la = JNull ∨ is_dict la = true →
  ∃ ev, render_address la = (ev, inr ()) ∧ length ev ≤ 2 ∧ Forall is_markdown ev.
Proof.
  intros [->|Hd]; [no_events|]. destruct la as [| | | | |d]; try done.
  unfold render_address. destruct (truthy (JDict d)); [|no_events].
  unfold get. rewrite !R_bind_pure, R_bind_emit.
  destruct (truthy (default JNull (assoc "telephone_number" d))).
  - eexists. split; [done|]. split; [simpl; lia|].
    repeat constructor; by eexists.
  - eexists. split; [done|]. split; [simpl; lia|].
    repeat constructor; by eexists.
Qed.

Lemma render_taxonomy_outcome (pt : json) :
  pt = JNull ∨ is_dict pt = true →
  ∃ ev, render_taxonomy pt = (ev, inr ()) ∧ length ev ≤ 1 ∧ Forall is_markdown ev.
Proof.
  intros [->|Hd]; [no_events|]. destruct pt as [| | | | |d]; try done.
  unfold render_taxonomy. destruct (truthy (JDict d)); [|no_events].
  unfold get. rewrite R_bind_pure.
  eexists. split; [done|]. split; [simpl; lia|]. repeat constructor; by eexists.
Qed.

(** The two outcomes of one card. *)
Lemma render_provider_outcome (provider : json) :
  (∃ c, render_provider provider = ([], inl c)) ∨
  (∃ name body,
     display_name provider = inr name ∧
     render_provider provider
     = (StMarkdown ([Lit "<div class='provider-name'>"] ++ name ++ [Lit "</div>"])
          :: body ++ [StMarkdown [Lit "</div>"]], inr ()) ∧
     length body ≤ 3 ∧ Forall is_markdown body).
Proof.
  unfold render_provider.
  destruct (display_name provider) as [c|name]; [left; by exists c|].
  rewrite R_bind_pure.
  destruct (location_address_of provider) as [c|la] eqn:Hla; [left; by exists c|].
  rewrite R_bind_pure.
  destruct (primary_taxonomy_of provider) as [c|pt] eqn:Hpt; [left; by exists c|].
  rewrite R_bind_pure, R_bind_emit.
  destruct (render_address_outcome la) as (eva & Ha & Hla' & Hma);
    [by eapply location_address_shape|].
  destruct (render_taxonomy_outcome pt) as (evt & Ht & Hpt' & Hmt);
    [by eapply primary_taxonomy_shape|].
  right. exists name, (eva ++ evt). split; [done|].
  rewrite Ha, R_bind_done, Ht, R_bind_done. simpl.
  split; [by rewrite <- app_assoc|]. split.
  - rewrite length_app. lia.
  - by apply Forall_app.
Qed.

(** X14.  A provider card is shown whole or not at all.  Either the entry
    makes the rendering raise, and then nothing of its card has been shown;
    or the card is shown: the line with the display name first, then at most
    three lines (address, phone, taxonomy), then the closing line. *)
Theorem provider_card_atomic (provider : json) :
  (∃ c, render_provider provider = ([], inl c)) ∨
  (∃ name body,
     display_name provider = inr name ∧
     render_provider provider
     = (StMarkdown ([Lit "<div class='provider-name'>"] ++ name ++ [Lit "</div>"])
          :: body ++ [StMarkdown [Lit "</div>"]], inr ()) ∧
     length body ≤ 3 ∧ Forall is_markdown body).
Proof. apply render_provider_outcome. Qed.

Lemma for_each_app (body : json → R unit) (l1 l2 : list json) :
  (for_each body l1).2 = inr () →
  for_each body (l1 ++ l2)
  = ((for_each body l1).1 ++ (for_each body l2).1, (for_each body l2).2).
Proof.
  induction l1 as [|x l1 IH]; simpl.
  - intros _. by destruct (for_each body l2).
  - destruct (body x) as [ev [c|[]]]; [done|]. rewrite !R_bind_done. simpl.
    intros Hok. rewrite IH by done. simpl. by rewrite app_assoc.
Qed.

Lemma for_each_stops (body : json → R unit) (x : json) (rest : list json)
    (ev : list ui_event) (c : crash) :
  body x = (ev, inl c) → for_each body (x :: rest) = (ev, inl c).
Proof. intros Hx. simpl. by rewrite Hx. Qed.

(** The header and the cards of a result whose provider list is a list. *)
Lemma render_dict_listing (d : list (string * json)) (l : list json) (v : json) :
  assoc "results" d = Some (JList l) → assoc "error" d = None →
  default (JNum 0) (assoc "result_count" d) = v → eq_zero v = false →
  render_provider_results (JDict d)
  = (StWrite [Lit "Found "; Fmt v; Lit " providers. Showing top ";
              Fmt (JNum (Z.of_nat (length l))); Lit ":"]
       :: (for_each render_provider l).1, (for_each render_provider l).2).
Proof.
  intros Hres Herr Hv Hnz. run_render.
  rewrite (truthy_dict d "results") by (rewrite Hres; eauto).
  rewrite Hres, bool_decide_true by eauto. cbv beta iota. simpl negb. cbv iota.
  rewrite Herr, (bool_decide_false (is_Some None)) by (by intros [? ?]).
  cbv beta iota. simpl default at 1. rewrite Hv, Hnz.
  unfold py_len, py_iter. simpl.
  by destruct (for_each render_provider l).
Qed.

Lemma well_formed_display_name (provider : json) :
  well_formed_provider provider = true → ∃ name, display_name provider = inr name.
Proof.
  destruct provider as [| | | | |d]; try done. simpl.
  intros [[Hb _]%andb_true_iff _]%andb_true_iff.
  unfold display_name, get, mbind, crash_bind, mret, crash_ret.
  destruct (default (JDict []) (assoc "basic" d)); try done.
  destruct (eq_str _ _); by eexists.
Qed.

Lemma well_formed_location (provider : json) :
  well_formed_provider provider = true →
  ∃ la, location_address_of provider = inr la.
Proof.
  destruct provider as [| | | | |d]; try done. simpl.
  intros [[_ Ha]%andb_true_iff _]%andb_true_iff.
  unfold location_address_of. simpl (get (JDict d) _ _).
  destruct (default (JList []) (assoc "addresses" d)) as [| | | |l|]; try done.
  simpl in *. apply find_first_dicts; [|done].
  intros x Hx. destruct x; try done. by eexists.
Qed.

Lemma well_formed_taxonomy (provider : json) :
  well_formed_provider provider = true →
  ∃ pt, primary_taxonomy_of provider = inr pt.
Proof.
  destruct provider as [| | | | |d]; try done. simpl.
  intros [_ Ht]%andb_true_iff.
  unfold primary_taxonomy_of. simpl (get (JDict d) _ _).
  destruct (default (JList []) (assoc "taxonomies" d)) as [| | | |l|]; try done.
  simpl in *. apply find_first_dicts; [|done].
  intros x Hx. destruct x; try done. by eexists.
Qed.

Lemma well_formed_renders (provider : json) :
  well_formed_provider provider = true →
  ∃ ev, render_provider provider = (ev, inr ()) ∧ 2 ≤ length ev ≤ 5.
Proof.
  intros Hwf.
  destruct (render_provider_outcome provider)
    as [[c Hc]|(name & body & _ & -> & Hlen & _)].
  - exfalso. unfold render_provider in Hc.
    destruct (well_formed_display_name provider Hwf) as [name Hname].
    destruct (well_formed_location provider Hwf) as [la Hla].
    destruct (well_formed_taxonomy provider Hwf) as [pt Hpt].
    rewrite Hname, R_bind_pure, Hla, R_bind_pure, Hpt, R_bind_pure,
      R_bind_emit in Hc.
    by injection Hc.
  - eexists. split; [done|]. simpl. rewrite length_app. simpl. lia.
Qed.

Lemma for_each_well_formed (l : list json) :
  Forall (λ p, well_formed_provider p = true) l →
  (for_each render_provider l).2 = inr () ∧
  2 * length l ≤ length (for_each render_provider l).1 ≤ 5 * length l.
Proof.
  induction 1 as [|p l Hp _ IH]; [simpl; split; [done|lia]|].
  destruct (well_formed_renders p Hp) as (ev & Hev & Hlen).
  simpl. rewrite Hev, R_bind_done. simpl.
  destruct IH as [-> IH]. split; [done|]. rewrite length_app. lia.
Qed.

(** X15.  A result with a provider list, no "error" entry and a non-zero
    [result_count] is shown as a header followed by the cards.  The header
    repeats the reported [result_count] and the number of entries actually
    in the list.  When every entry is well formed, nothing raises and each
    entry contributes between 2 and 5 lines. *)
Theorem render_listing (d : list (string * json)) (l : list json) (v : json) :
  assoc "results" d = Some (JList l) → assoc "error" d = None →
  assoc "result_count" d = Some v → eq_zero v = false →
  ∃ cards outcome,
    render_provider_results (JDict d)
    = (StWrite [Lit "Found "; Fmt v; Lit " providers. Showing top ";
                Fmt (JNum (Z.of_nat (length l))); Lit ":"] :: cards, outcome) ∧
    (Forall (λ p, well_formed_provider p = true) l →
     outcome = inr () ∧ 2 * length l ≤ length cards ≤ 5 * length l).
Proof.
  intros Hres Herr Hv Hnz. eexists _, _. split.
  - apply render_dict_listing; [done|done|by rewrite Hv|done].
  - intros Hwf. by apply for_each_well_formed.
Qed.

Lemma render_listing_witness :
  ∃ cards outcome,
    render_provider_results
      (JDict [("result_count", JNum 12);
              ("results", JList [JDict [("enumeration_type", JStr "NPI-2")];
                                 JDict []])])
    = (StWrite [Lit "Found "; Fmt (JNum 12); Lit " providers. Showing top ";
                Fmt (JNum 2); Lit ":"] :: cards, outcome).
Proof.
  destruct (render_listing
              [("result_count", JNum 12);
               ("results", JList [JDict [("enumeration_type", JStr "NPI-2")];
                                  JDict []])]
              [JDict [("enumeration_type", JStr "NPI-2")]; JDict []]
              (JNum 12))
    as (cards & outcome & H & _); try reflexivity.
  by exists cards, outcome.
Defined.

(** X16.  The first entry that makes the rendering raise ends it: the
    header and the cards of the well-formed entries before it have been
    shown, nothing of the entry itself, and none of the entries after it. *)
Theorem render_stops_at_bad_entry (d : list (string * json))
    (good rest : list json) (bad v : json) (c : crash) :
  assoc "results" d = Some (JList (good ++ bad :: rest)) →
  assoc "error" d = None →
  assoc "result_count" d = Some v → eq_zero v = false →
  Forall (λ p, well_formed_provider p = true) good →
  (render_provider bad).2 = inl c →
  render_provider_results (JDict d)
  = (StWrite [Lit "Found "; Fmt v; Lit " providers. Showing top ";
              Fmt (JNum (Z.of_nat (length (good ++ bad :: rest)))); Lit ":"]
       :: (for_each render_provider good).1, inl c).
Proof.
  intros Hres Herr Hv Hnz Hgood Hbad.
  rewrite (render_dict_listing d _ v Hres Herr) by (by rewrite ?Hv).
  destruct (for_each_well_formed good Hgood) as [Hok _].
  rewrite for_each_app by done.
  assert (Hstop : render_provider bad = ([], inl c)).
  { destruct (render_provider_outcome bad)
      as [[c' Hc']|(name & body & _ & Hc' & _)]; rewrite Hc' in Hbad;
      [by injection Hbad as ->|done]. }
  rewrite (for_each_stops _ _ _ _ _ Hstop). simpl. by rewrite app_nil_r.
Qed.

Lemma render_stops_at_bad_entry_witness :
  render_provider_results
    (JDict [("result_count", JNum 3);
            ("results", JList [JDict [("enumeration_type", JStr "NPI-2")];
                               JDict [("basic", JNull)];
                               JDict []])])
  = ([StWrite [Lit "Found "; Fmt (JNum 3); Lit " providers. Showing top ";
               Fmt (JNum 3); Lit ":"];
      StMarkdown [Lit "<div class='provider-name'>"; Fmt (JStr "Unknown Provider");
                  Lit "</div>"];
      StMarkdown [Lit "</div>"]], inl AttributeError).
Proof.
  apply (render_stops_at_bad_entry
           [("result_count", JNum 3);
            ("results", JList [JDict [("enumeration_type", JStr "NPI-2")];
                               JDict [("basic", JNull)]; JDict []])]
           [JDict [("enumeration_type", JStr "NPI-2")]] [JDict []]
           (JDict [("basic", JNull)]) (JNum 3) AttributeError);
    try reflexivity.
  repeat constructor.
Defined.

(** X17.  The first guard of the rendering: a result that is falsy ([None],
    an empty dictionary, list or string, 0, false), or a dictionary, list or
    string without "results", is shown as the warning "No provider results
    found." and nothing else; a number or [True] makes the membership test
    raise before anything is shown. *)
Theorem render_without_results (results : json) :
  (truthy results = false ∨ contains "results" results = inr false →
   render_provider_results results = ([no_results_warning], inr ())) ∧
  (truthy results = true → ∀ c, contains "results" results = inl c →
   render_provider_results results = ([], inl c)).
Proof.
  unfold render_provider_results. split.
  - intros [Hf|Hc].
    + by rewrite Hf, R_bind_ret.
    + destruct (truthy results); [|by rewrite R_bind_ret].
      by rewrite Hc, R_bind_pure, !R_bind_ret.
  - intros -> c ->. done.
Qed.

Lemma render_without_results_witness :
  render_provider_results JNull = ([no_results_warning], inr ()) ∧
  render_provider_results (JDict [("Errors", JList [JStr "bad query"])])
  = ([no_results_warning], inr ()) ∧
  render_provider_results (JNum 7) = ([], inl TypeError).
Proof.
  split_and!.
  - destruct (render_without_results JNull) as [H _]. apply H. by left.
  - destruct (render_without_results (JDict [("Errors", JList [JStr "bad query"])]))
      as [H _].
    apply H. by right.
  - destruct (render_without_results (JNum 7)) as [_ H]. by apply H.
Defined.

(** X18.  A result without a [result_count] entry counts as zero matches:
    with a results list and no "error" entry it is shown as the notice "No
    providers found for this specialty in the selected location.", whatever
    the results list holds. *)
Theorem render_missing_count (d : list (string * json)) :
  is_Some (assoc "results" d) → assoc "error" d = None →
  assoc "result_count" d = None →
  render_provider_results (JDict d) = ([no_providers_notice], inr ()).
Proof.
  intros Hres Herr Hcount. apply render_dict_empty_result; [done|done|].
  by rewrite Hcount.
Qed.

Lemma render_missing_count_witness :
  render_provider_results
    (JDict [("results", JList [JDict [("enumeration_type", JStr "NPI-2")]])])
  = ([no_providers_notice], inr ()).
Proof.
  apply render_missing_count; [vm_compute; eauto|reflexivity|reflexivity].
Defined.

Lemma find_first_skips (test : json → crash + bool) (pre post : list json) (a : json) :
  Forall (λ x, test x = inr false) pre → test a = inr true →
  find_first test (pre ++ a :: post) = inr a.
Proof.
  intros Hpre Ha. induction Hpre as [|x pre Hx _ IH]; simpl.
  - by rewrite Ha.
  - by rewrite Hx.
Qed.

Lemma find_first_none (test : json → crash + bool) (items : list json) :
  Forall (λ x, test x = inr false) items → find_first test items = inr JNull.
Proof. induction 1 as [|x items Hx _ IH]; simpl; [done|]. by rewrite Hx. Qed.

Lemma other_purpose_test (a : json) :
  other_purpose a →
  (purpose ← get a "address_purpose" JNull;
   mret (eq_str purpose "LOCATION")) = (inr false : crash + bool).
Proof. intros (d & -> & Hd). simpl. by rewrite Hd. Qed.

(** X19.  The address of a card is the first entry of "addresses" whose
    purpose is "LOCATION": entries before it with another purpose are passed
    over and entries after it are not looked at, whatever they are.  When
    every entry has another purpose there is no address, and the card has
    neither an address line nor a phone line. *)
Theorem location_address_first (d a : list (string * json)) (pre post : list json) :
  Forall other_purpose pre →
  eq_str (default JNull (assoc "address_purpose" a)) "LOCATION" = true →
  (assoc "addresses" d = Some (JList (pre ++ JDict a :: post)) →
   location_address_of (JDict d) = inr (JDict a)) ∧
  (assoc "addresses" d = Some (JList pre) →
   location_address_of (JDict d) = inr JNull ∧
   render_address JNull = ([], inr ())).
Proof.
  intros Hpre Ha. unfold location_address_of.
  assert (Hpre' : Forall (λ x,
            (purpose ← get x "address_purpose" JNull;
             mret (eq_str purpose "LOCATION")) = (inr false : crash + bool)) pre).
  { eapply Forall_impl; [exact Hpre|]. apply other_purpose_test. }
  split; intros Haddr; simpl (get (JDict d) _ _); rewrite Haddr; simpl.
  - apply find_first_skips; [done|]. simpl. by rewrite Ha.
  - split; [|done]. by apply find_first_none.
Qed.

Lemma location_address_first_witness :
  location_address_of
    (JDict [("addresses", JList [
       JDict [("address_purpose", JStr "MAILING"); ("city", JStr "Tacoma")];
       JDict [("address_purpose", JStr "LOCATION"); ("city", JStr "Seattle")];
       JNum 3])])
  = inr (JDict [("address_purpose", JStr "LOCATION"); ("city", JStr "Seattle")]).
Proof.
  destruct (location_address_first
              [("addresses", JList [
                 JDict [("address_purpose", JStr "MAILING"); ("city", JStr "Tacoma")];
                 JDict [("address_purpose", JStr "LOCATION"); ("city", JStr "Seattle")];
                 JNum 3])]
              [("address_purpose", JStr "LOCATION"); ("city", JStr "Seattle")]
              [JDict [("address_purpose", JStr "MAILING"); ("city", JStr "Tacoma")]]
              [JNum 3]) as [H _].
  - repeat constructor. by eexists.
  - reflexivity.
  - apply H. reflexivity.
Defined.

(** ** The results panel *)

Lemma P_bind_ret {A B} (a : A) (f : A → P B) : (mret a ≫= f) = f a.
Proof. unfold mbind, P_bind, mret, P_ret. by destruct (f a). Qed.

Lemma P_bind_show {B} (e : page_event) (f : unit → P B) :
  (show e ≫= f) = (e :: (f ()).1, (f ()).2).
Proof. unfold mbind, P_bind, show. by destruct (f ()). Qed.

Lemma P_bind_done {A B} (ev : list page_event) (a : A) (f : A → P B) :
  ((ev, inr a) ≫= f) = (ev ++ (f a).1, (f a).2).
Proof. unfold mbind, P_bind. by destruct (f a). Qed.

Lemma prob_at_lookup (p : list Q) (i : nat) (q : Q) :
  p !! i = Some q → prob_at p i = q.
Proof. intros Hq. unfold prob_at. by rewrite nth_lookup, Hq. Qed.

Lemma possibility_line_eq (fmt_pct : Q → string) (classes_ : list label)
    (t : ProbTable) (i : nat) (q : Q) (c : label) :
  probs t !! i = Some q → classes_ !! i = Some c →
  possibility_line fmt_pct classes_ t i
  = if Qltb q threshold then mret () else show (possibility_event fmt_pct c q).
Proof. intros Hq Hc. unfold possibility_line. by rewrite Hq, Hc. Qed.

Lemma possibility_lines (fmt_pct : Q → string) (classes_ : list label)
    (t : ProbTable) (idx : list nat) :
  length (probs t) ≤ length classes_ →
  Forall (λ i, i < length (probs t)) idx →
  ∃ lines,
    for_each_idx (possibility_line fmt_pct classes_ t) idx = (lines, inr ()) ∧
    Forall2 (λ e iq, ∃ c, classes_ !! iq.1 = Some c ∧
                          e = possibility_event fmt_pct c iq.2)
      lines
      (map (λ i, (i, prob_at (probs t) i))
         (filter (λ i, Qltb (prob_at (probs t) i) threshold = false) idx)).
Proof.
  intros Hcover. induction 1 as [|i idx Hi _ (lines & Hrun & Hlines)].
  - exists []. split; [done|constructor].
  - destruct (lookup_lt_is_Some_2 (probs t) i Hi) as [q Hq].
    destruct (lookup_lt_is_Some_2 classes_ i ltac:(lia)) as [c Hc].
    cbn [for_each_idx]. rewrite (possibility_line_eq _ _ _ _ _ _ Hq Hc).
    rewrite filter_cons, (prob_at_lookup _ _ _ Hq).
    destruct (Qltb q threshold) eqn:Hlow.
    + rewrite P_bind_ret. case_decide; [done|]. by exists lines.
    + rewrite P_bind_show, Hrun. case_decide; [|done].
      eexists. split; [done|]. simpl. constructor; [|done].
      exists c. by rewrite (prob_at_lookup _ _ _ Hq).
Qed.

Lemma specialty_block_outcome (st : Session) :
  ∃ ev, specialty_block st = (ev, inr ()) ∧ length ev ≤ 3 ∧
        (field_truthy (recommended_specialty st) = false → ev = []).
Proof.
  unfold specialty_block.
  destruct (field_truthy (recommended_specialty st));
    [|exists []; split_and!; [done|simpl; lia|done]].
  rewrite !P_bind_show.
  destruct (field_truthy (taxonomy_code st));
    (eexists; split; [done|]; split; [simpl; lia|done]).
Qed.

(** X20.  In a session state that can occur and holds a probability table,
    with class labels for all its probabilities, the results panel never
    raises.  It shows the predicted label, the heading, and then one line
    per entry of the "other possibilities" list, in its order, each with the
    label and the probability of that entry; at most three lines for the
    specialty follow. *)
Theorem results_panel_lines (fmt_pct : Q → string) (classes_ : list label)
    model all_symptoms m st t y :
  reachable model all_symptoms m st →
  prediction_probs st = Some t →
  length (probs t) ≤ length classes_ →
  last_prediction st = Some y → label_truthy y = true →
  ∃ lines rest,
    results_panel fmt_pct classes_ st
    = (Ui (StMarkdown [Lit "## Likely Disease: **"; Lit (label_str y); Lit "**"])
         :: Ui (StMarkdown [Lit "### Other possibilities"]) :: lines ++ rest,
       inr ()) ∧
    Forall2 (λ e iq, ∃ c, classes_ !! iq.1 = Some c ∧
                          e = possibility_event fmt_pct c iq.2)
      lines (other_possibilities t) ∧
    length rest ≤ 3.
Proof.
  intros Hst Ht Hcover Hy Hty.
  destruct (reachable_facts _ _ _ _ Hst) as (Htab & _).
  destruct (Htab t Ht) as [Htop _].
  destruct (possibility_lines fmt_pct classes_ t (top_idx t) Hcover)
    as (lines & Hrun & Hlines).
  { rewrite Htop. apply Forall_forall. intros i Hi. by apply top3_elem. }
  destruct (specialty_block_outcome st) as (rest & Hrest & Hlen & _).
  exists lines, rest. split; [|by split].
  unfold results_panel. rewrite Hy, Hty, Ht, !P_bind_show. simpl.
  rewrite Hrun. simpl. rewrite Hrest. done.
Qed.

Lemma results_panel_lines_witness :
  ∃ lines rest,
    results_panel (λ _, "?") [LStr "Flu"; LStr "Cold"] demo_state
    = (Ui (StMarkdown [Lit "## Likely Disease: **"; Lit "Flu"; Lit "**"])
         :: Ui (StMarkdown [Lit "### Other possibilities"]) :: lines ++ rest,
       inr ()) ∧
    length lines = 2.
Proof.
  destruct (results_panel_lines (λ _, "?") [LStr "Flu"; LStr "Cold"]
              demo_model ["fever"; "cough"] demo_mapping demo_state
              {| probs := [7 # 10; 3 # 10]%Q; top_idx := [0; 1] |} (LStr "Flu"))
    as (lines & rest & Hpanel & Hlines & _).
  - apply reach_predict, reach_initial.
  - reflexivity.
  - simpl. lia.
  - reflexivity.
  - reflexivity.
  - exists lines, rest. split; [exact Hpanel|].
    apply Forall2_length in Hlines. exact Hlines.
Defined.

(** X21.  With a classifier that has no [predict_proba], every prediction
    of a non-empty label is followed by an exception in the results panel:
    the stored "prediction_probs" is [None] and is subscripted.  The label
    is stored and shown, then the run ends with a [TypeError]; the find
    button is not reached and the provider panel stays closed. *)
Theorem panel_raises_without_probabilities (fmt_pct : Q → string)
    (classes_ : list label) model all_symptoms m selected find_btn st y :
  predict_proba model = None →
  reachable model all_symptoms m st →
  selected ≠ [] →
  predict model (one_hot selected all_symptoms) = inr (LStr y) → y ≠ "" →
  ∃ st',
    right_column fmt_pct classes_ model all_symptoms m true selected find_btn st
    = (st',
       [Ui (StMarkdown [Lit "### Prediction Results"]);
        Ui (StMarkdown [Lit "## Likely Disease: **"; Lit y; Lit "**"])],
       Some (Uncaught TypeError)) ∧
    last_prediction st' = Some (LStr y) ∧
    prediction_probs st' = None ∧
    show_providers st' = false.
Proof.
  intros Hplain Hst Hsel Hpred Hy.
  destruct (reachable_facts _ _ _ _ Hst) as (_ & _ & _ & _ & Hnone).
  specialize (Hnone Hplain).
  unfold right_column, on_predict. rewrite bool_decide_true by done. simpl.
  run_body. rewrite Hpred, Hplain. simpl.
  destruct (resolve_specialty m y) as [[spec tax]|]; simpl;
    unfold results_panel; simpl; rewrite bool_decide_false by done; simpl;
    rewrite Hnone; simpl; eexists; done.
Qed.

Lemma panel_raises_without_probabilities_witness :
  ∃ st',
    right_column (λ _, "?") [LStr "Flu"] plain_model ["fever"; "cough"]
      demo_mapping true ["fever"] false initial_session
    = (st',
       [Ui (StMarkdown [Lit "### Prediction Results"]);
        Ui (StMarkdown [Lit "## Likely Disease: **"; Lit "Flu"; Lit "**"])],
       Some (Uncaught TypeError)).
Proof.
  destruct (panel_raises_without_probabilities (λ _, "?") [LStr "Flu"]
              plain_model ["fever"; "cough"] demo_mapping ["fever"] false
              initial_session "Flu") as (st' & H & _);
    [reflexivity|apply reach_initial|discriminate|reflexivity|discriminate|].
  by exists st'.
Defined.

(** X22.  When the probability estimate raises during the first prediction
    of a session (no table stored yet), the error message is shown, and the
    results panel then raises on the missing table: the new label has been
    stored and is shown, and the run ends with a [TypeError]. *)
Theorem panel_raises_after_failed_estimate (fmt_pct : Q → string)
    (classes_ : list label) model all_symptoms m selected find_btn st proba e y :
  selected ≠ [] →
  predict model (one_hot selected all_symptoms) = inr (LStr y) → y ≠ "" →
  predict_proba model = Some proba →
  proba (one_hot selected all_symptoms) = inl e →
  prediction_probs st = None →
  ∃ st',
    right_column fmt_pct classes_ model all_symptoms m true selected find_btn st
    = (st',
       [Ui (StMarkdown [Lit "### Prediction Results"]);
        Ui (StError [Lit "Prediction failed: "; Lit (exn_msg e)]);
        Ui (StMarkdown [Lit "## Likely Disease: **"; Lit y; Lit "**"])],
       Some (Uncaught TypeError)) ∧
    last_prediction st' = Some (LStr y).
Proof.
  intros Hsel Hpred Hy Hproba He Hnone.
  unfold right_column, on_predict. rewrite bool_decide_true by done. simpl.
  run_body. rewrite Hpred, Hproba, He. simpl.
  unfold results_panel; simpl. rewrite bool_decide_false by done. simpl.
  rewrite Hnone. simpl. by eexists.
Qed.

Lemma panel_raises_after_failed_estimate_witness :
  ∃ st',
    right_column (λ _, "?") [LStr "Flu"] flaky_model ["fever"; "cough"] ∅ true
      ["fever"] false initial_session
    = (st',
       [Ui (StMarkdown [Lit "### Prediction Results"]);
        Ui (StError [Lit "Prediction failed: "; Lit "boom"]);
        Ui (StMarkdown [Lit "## Likely Disease: **"; Lit "Flu"; Lit "**"])],
       Some (Uncaught TypeError)).
Proof.
  destruct (panel_raises_after_failed_estimate (λ _, "?") [LStr "Flu"]
              flaky_model ["fever"; "cough"] ∅ ["fever"] false initial_session
              (λ _, inl (Raised "boom")) (Raised "boom") "Flu")
    as (st' & H & _); try reflexivity; try discriminate.
  by exists st'.
Defined.





Lemma top3_most_probable_witness :
  let p := [2 # 10; 7 # 10; 1 # 10; 5 # 10]%Q in
  top3 p = [1; 3; 0] ∧ (prob_at p 2 <= prob_at p 0)%Q.
Proof.
  split; [vm_compute; reflexivity|].
  destruct (top3_most_probable [2 # 10; 7 # 10; 1 # 10; 5 # 10]%Q)
    as (_ & _ & _ & _ & H).
  apply H.
  - apply (bool_decide_unpack _). vm_compute. exact I.
  - simpl. lia.
  - apply (bool_decide_unpack _). vm_compute. exact I.
Defined.
